(** * uifont_opsz: a probe of CoreText's variable-font equality

    A shallow embedding of [uifont_opsz.cpp].  The program asks CoreText for
    fonts, requests variations of their axes and prints whether the result
    compares equal to the original.  CoreText, CoreFoundation and the POSIX
    file calls are external to the program: they are the fields of the
    records [CoreText] and [Posix], and every statement below is for all
    their implementations unless it names one. *)

From Stdlib Require Import ZArith Floats Uint63 Ascii String.
From stdpp Require Import gmap strings list.

Open Scope Z_scope.
Set Warnings "-inexact-float".

(** ** C integer conversions (LP64, [char] signed as on macOS) *)

Module C.

(** Conversion to an unsigned type of [w] bits. *)
Definition wrap (w z : Z) : Z := z mod 2 ^ w.

(** Conversion to a signed type of [w] bits (two's complement). *)
Definition swrap (w z : Z) : Z := (z + 2 ^ (w - 1)) mod 2 ^ w - 2 ^ (w - 1).

Definition to_uint32 : Z -> Z := wrap 32.
Definition to_size_t : Z -> Z := wrap 64.
Definition to_long : Z -> Z := swrap 64.
Definition to_char : Z -> Z := swrap 8.

(** The byte a [char] occupies in a [std::string]. *)
Definition ascii_of_char (c : Z) : ascii := ascii_of_N (Z.to_N (wrap 8 c)).

(** [std::string(const char* )]: the characters up to the first NUL. *)
Fixpoint cstring (buffer : list Z) : string :=
  match buffer with
  | [] => EmptyString
  | c :: rest =>
      if Z.eqb c 0 then EmptyString else String (ascii_of_char c) (cstring rest)
  end.

(** A [char] literal. *)
Definition lit (a : ascii) : Z := to_char (Z.of_N (N_of_ascii a)).

End C.

(** ** Tags *)

(** [std::string tag_to_string(uint32_t tag)] *)
Definition tag_to_string (tag : Z) : string :=
  let b0 := C.to_char (Z.shiftr (Z.land tag 0xff000000) 24) in
  let b1 := C.to_char (Z.shiftr (Z.land tag 0xff0000) 16) in
  let b2 := C.to_char (Z.shiftr (Z.land tag 0xff00) 8) in
  let b3 := C.to_char (Z.land tag 0xff) in
  let b4 := 0 in
  C.cstring [b0; b1; b2; b3; b4].

(** [uint32_t constexpr make_tag(char a, char b, char c, char d)]: each
    [char] is converted to [uint32_t] (sign-extending a negative one) before
    it is shifted; the shifts and the result are 32 bits wide. *)
Definition make_tag (a b c d : Z) : Z :=
  Z.lor
    (Z.lor
       (Z.lor (C.to_uint32 (Z.shiftl (C.to_uint32 a) 24))
              (C.to_uint32 (Z.shiftl (C.to_uint32 b) 16)))
       (C.to_uint32 (Z.shiftl (C.to_uint32 c) 8)))
    (C.to_uint32 d).

Definition kOpszTag : Z := make_tag (C.lit "o") (C.lit "p") (C.lit "s") (C.lit "z").
Definition kWdthTag : Z := make_tag (C.lit "w") (C.lit "d") (C.lit "t") (C.lit "h").
Definition kWghtTag : Z := make_tag (C.lit "w") (C.lit "g") (C.lit "h") (C.lit "t").

(** What the round trip is expected to return for the code units [a b c d]. *)
Definition four_chars (a b c d : Z) : string :=
  String (C.ascii_of_char a) (String (C.ascii_of_char b)
    (String (C.ascii_of_char c) (String (C.ascii_of_char d) EmptyString))).

Example kOpszTag_value : kOpszTag = 0x6f70737a.
Proof. reflexivity. Qed.

Example opsz_string : tag_to_string kOpszTag = "opsz"%string.
Proof. reflexivity. Qed.

(** ** Values the program reads from CoreFoundation objects *)

(** A variation axis, as the two entries of the axis dictionary that the
    program reads: [kCTFontVariationAxisIdentifierKey] (a [CFNumber]) and
    [kCTFontVariationAxisDefaultValueKey] (a [CFNumber] read as a [double]). *)
Record Axis := {
  axis_identifier : Z;
  axis_default : float;
}.

(** [CFNumberGetValue(n, kCFNumberLongType, &out)] for an integer [CFNumber]
    that fits in a [long]. *)
Definition CFNumberGetValue_long (n : Z) : Z := n.

(** [CFDictionaryAddValue]: adds the pair only if the key is absent. *)
Definition CFDictionaryAddValue `{Countable K} {V} (d : gmap K V) (k : K) (v : V) : gmap K V :=
  match d !! k with
  | Some _ => d
  | None => <[k:=v]> d
  end.

Definition kCTFontVariationAttribute : string := "NSCTFontVariationAttribute".

(** The constant [0.0001f]: the binary32 value nearest to 1/10000, which the
    compound assignment to a [double] widens without change. *)
Definition FLT_0_0001 : float := 0x1.a36e2ep-14%float.

(** An [int] of an initializer list converted to [CGFloat]. *)
Definition CGFloat_of_int (n : Z) : float := PrimFloat.of_uint63 (Uint63.of_Z n).

(** ** The platform *)

(** CoreText and CoreFoundation, as far as the program calls them.  Fonts
    and descriptors are immutable, so every call is a function of its
    arguments; a variation dictionary is a finite map from axis identifier to
    value, an attribute dictionary a finite map from attribute name to
    variation dictionary.  Calls return objects, never [NULL], as the
    program takes for granted. *)
Record CoreText := {
  Font : Type;
  FontDescriptor : Type;
  Data : Type;
  CFDataCreateWithBytesNoCopy : Z -> Z -> Data;
  CTFontManagerCreateFontDescriptorFromData : Data -> FontDescriptor;
  CTFontCreateWithFontDescriptor : FontDescriptor -> float -> Font;
  CTFontCreateUIFontForLanguage : float -> Font;
  CTFontCopyFontDescriptor : Font -> FontDescriptor;
  CTFontCopyVariationAxes : Font -> list Axis;
  CTFontCopyVariation : Font -> gmap Z float;
  CTFontGetSize : Font -> float;
  CTFontDescriptorCreateCopyWithAttributes :
    FontDescriptor -> gmap string (gmap Z float) -> FontDescriptor;
  CTFontDescriptorCreateWithAttributes : gmap string (gmap Z float) -> FontDescriptor;
  CTFontCreateCopyWithAttributes : Font -> float -> FontDescriptor -> Font;
  CFEqual_Dictionary : gmap Z float -> gmap Z float -> bool;
  CFEqual_Font : Font -> Font -> bool;
}.

(** A [CTFontRef]: a font or [nullptr]. *)
Definition CTFontRef (P : CoreText) : Type := option (Font P).

(** The file calls of [make_ctfont_from_file]. *)
Record Posix := {
  FILE : Type;
  fopen : string -> string -> option FILE;
  fileno : FILE -> Z;
  (** return value and the [st_size] found in the buffer afterwards *)
  fstat : Z -> Z * Z;
  (** [mmap(nullptr, length, PROT_READ, MAP_PRIVATE, fd, 0)] *)
  mmap : Z -> Z -> Z;
}.

(** ** Effects: standard output and faults *)

Inductive printf_arg :=
| ArgString (s : string)
| ArgDouble (x : float).

Inductive event :=
| Printf (format : string) (args : list printf_arg)
| Fflush
| CFShow.

Inductive fault :=
| NullDereference
| IndexOutOfRange
| AssertionFailed.

Inductive outcome (A : Type) :=
| Done (a : A)
| Fault (f : fault).
Arguments Done {A} a.
Arguments Fault {A} f.

(** A computation: what it wrote, in order, and how it ended. *)
Record M (A : Type) := mkM {
  trace : list event;
  result : outcome A;
}.
Arguments mkM {A} trace result.
Arguments trace {A} m.
Arguments result {A} m.

#[global] Instance M_ret : MRet M := λ A a, mkM [] (Done a).

#[global] Instance M_bind : MBind M := λ A B k m,
  match result m with
  | Done a => let m' := k a in mkM (trace m ++ trace m') (result m')
  | Fault f => mkM (trace m) (Fault f)
  end.

Definition printf (format : string) (args : list printf_arg) : M unit :=
  mkM [Printf format args] (Done tt).

Definition fflush_stdout : M unit := mkM [Fflush] (Done tt).

Definition raise {A} (f : fault) : M A := mkM [] (Fault f).

(** A platform call on a font handle; CoreText faults on [nullptr]. *)
Definition on_font {P : CoreText} {A} (call : Font P -> A) (font : CTFontRef P) : M A :=
  match font with
  | Some f => mret (call f)
  | None => raise NullDereference
  end.

Definition CFArrayGetValueAtIndex {A} (array : list A) (i : nat) : M A :=
  match array !! i with
  | Some x => mret x
  | None => raise IndexOutOfRange
  end.

(** [for (int i = start; i < start + n; ++i) body], threading the variables
    the body updates. *)
Fixpoint for_loop {S} (n : nat) (i : nat) (body : nat -> S -> M S) (s : S) : M S :=
  match n with
  | O => mret s
  | Datatypes.S n' => s' ← body i s; for_loop n' (Datatypes.S i) body s'
  end.

(** A range-based [for] over an initializer list; the observations of the
    iterations are collected in order. *)
Fixpoint for_each {A B} (l : list A) (body : A -> M (list B)) : M (list B) :=
  match l with
  | [] => mret []
  | x :: l' => r ← body x; rs ← for_each l' body; mret (r ++ rs)
  end.

Definition bool_text (b : bool) : string := if b then "true" else "false".

(** ** The program *)

(** What one trial of the sweep computed: its parameters and the locals the
    claims are about.  [F] is the platform's type of fonts. *)
Record Trial (F : Type) := {
  omit_opsz : bool;
  axis_to_bump : Z;
  wghtValue : float;
  requestedVariation : gmap Z float;
  resultFont : option F;
  resultVariation : gmap Z float;
  variationEqual : bool;
  fontEqual : bool;
}.
Arguments omit_opsz {F} t.
Arguments axis_to_bump {F} t.
Arguments wghtValue {F} t.
Arguments requestedVariation {F} t.
Arguments resultFont {F} t.
Arguments resultVariation {F} t.
Arguments variationEqual {F} t.
Arguments fontEqual {F} t.

(** [struct TestCase { CTFontRef font; const char* name; }] *)
Record TestCase (F : Type) := {
  font : option F;
  name : string;
}.
Arguments font {F} t.
Arguments name {F} t.

(** The branch the preprocessor keeps: [#if 0] selects the [#else] part. *)
Definition FONT_LEVEL_COPY : bool := false.

Section Program.

Context (P : CoreText) (O : Posix).

(** [CTFontRef make_ctfont_from_file(const char* file, CGFloat size)] *)
Definition make_ctfont_from_file (file : string) (size : float) : M (CTFontRef P) :=
  match fopen O file "rb" with
  | None =>
      printf "Could not open: %s\n" [ArgString file];;
      mret None
  | Some fileHandle =>
      let fileDescriptor := fileno O fileHandle in
      let '(err, st_size) := fstat O fileDescriptor in
      let fileSize := C.to_size_t st_size in
      let fileMmap := mmap O fileSize fileDescriptor in
      let fileData := CFDataCreateWithBytesNoCopy P fileMmap (C.to_long fileSize) in
      let desc := CTFontManagerCreateFontDescriptorFromData P fileData in
      let ctFont := CTFontCreateWithFontDescriptor P desc size in
      mret (Some ctFont)
  end.

(** [CTFontRef make_ctfont_from_uifont(CGFloat size)] *)
Definition make_ctfont_from_uifont (size : float) : CTFontRef P :=
  Some (CTFontCreateUIFontForLanguage P size).

(** The loop that prints the axes of a font with their current values
    (lines 220-241 and 250-271). *)
Definition print_axes (axes : list Axis) (variation : gmap Z float) : M unit :=
  for_loop (length axes) 0 (λ i _,
    axis ← CFArrayGetValueAtIndex axes i;
    let tagNumber := axis_identifier axis in
    let tagLong := CFNumberGetValue_long tagNumber in
    let defDouble := axis_default axis in
    let valueDouble :=
      match variation !! tagNumber with
      | Some currentDouble => currentDouble
      | None => defDouble
      end in
    printf "(%s: %f) " [ArgString (tag_to_string (C.to_uint32 tagLong)); ArgDouble valueDouble]) tt.

(** The first loop over the axes (lines 122-147): prints them and fills
    [originalResolvedVariation]. *)
Definition resolve_axes (originalAxes : list Axis) (originalVariation : gmap Z float)
  : M (gmap Z float) :=
  for_loop (length originalAxes) 0 (λ i originalResolvedVariation,
    originalAxis ← CFArrayGetValueAtIndex originalAxes i;
    let tagNumber := axis_identifier originalAxis in
    let tagLong := CFNumberGetValue_long tagNumber in
    let defDouble := axis_default originalAxis in
    let valueDouble :=
      match originalVariation !! tagNumber with
      | Some currentDouble => currentDouble
      | None => defDouble
      end in
    printf "(%s: %f) " [ArgString (tag_to_string (C.to_uint32 tagLong)); ArgDouble valueDouble];;
    mret (CFDictionaryAddValue originalResolvedVariation tagNumber valueDouble)) ∅.

(** The loop that builds [requestedVariation] (lines 161-190). *)
Definition build_request (originalAxes : list Axis) (originalResolvedVariation : gmap Z float)
    (omit_opsz : bool) (axis_to_bump : Z) (wghtValue : float) : M (gmap Z float) :=
  for_loop (length originalAxes) 0 (λ i requestedVariation,
    originalAxis ← CFArrayGetValueAtIndex originalAxes i;
    let tagNumber := axis_identifier originalAxis in
    let tagLong := CFNumberGetValue_long tagNumber in
    match originalResolvedVariation !! tagNumber with
    | None => raise AssertionFailed
    | Some currentDouble =>
        let valueDouble := currentDouble in
        if (tagLong =? kOpszTag) && omit_opsz then
          printf "#%s: %f# " [ArgString (tag_to_string (C.to_uint32 tagLong)); ArgDouble valueDouble];;
          mret requestedVariation
        else
          let valueDouble :=
            if tagLong =? axis_to_bump then (valueDouble + FLT_0_0001)%float else valueDouble in
          let valueDouble :=
            if tagLong =? kWghtTag then wghtValue else valueDouble in
          printf "(%s: %f) " [ArgString (tag_to_string (C.to_uint32 tagLong)); ArgDouble valueDouble];;
          mret (CFDictionaryAddValue requestedVariation tagNumber valueDouble)
    end) ∅.

(** The font the platform is asked for (lines 198-213). *)
Definition derive_font (originalFont : CTFontRef P) (originalDescriptor : FontDescriptor P)
    (requestedAttributes : gmap string (gmap Z float)) : M (CTFontRef P) :=
  if FONT_LEVEL_COPY then
    let requestedDescriptor := CTFontDescriptorCreateWithAttributes P requestedAttributes in
    fflush_stdout;;
    mkM [CFShow] (Done tt);;
    resultFont ← on_font (λ f, CTFontCreateCopyWithAttributes P f 0 requestedDescriptor) originalFont;
    mret (Some resultFont)
  else
    size ← on_font (CTFontGetSize P) originalFont;
    let resultDescriptor :=
      CTFontDescriptorCreateCopyWithAttributes P originalDescriptor requestedAttributes in
    fflush_stdout;;
    let resultFont := CTFontCreateWithFontDescriptor P resultDescriptor size in
    mret (Some resultFont).

(** [CFEqual] on two font handles. *)
Definition CFEqual_fonts (a b : CTFontRef P) : M bool :=
  match a, b with
  | Some x, Some y => mret (CFEqual_Font P x y)
  | _, _ => raise NullDereference
  end.

(** The body of the innermost loop (lines 156-296). *)
Definition trial (testCase : TestCase (Font P)) (originalFont : CTFontRef P)
    (originalDescriptor : FontDescriptor P) (originalAxes : list Axis)
    (originalResolvedVariation : gmap Z float)
    (omit_opsz : bool) (axis_to_bump : Z) (wghtValue : float) : M (Trial (Font P)) :=
  printf "Request : " [];;
  requestedVariation ←
    build_request originalAxes originalResolvedVariation omit_opsz axis_to_bump wghtValue;
  printf "\n" [];;
  let requestedAttributes :=
    CFDictionaryAddValue ∅ kCTFontVariationAttribute requestedVariation in
  resultFont ← derive_font originalFont originalDescriptor requestedAttributes;
  resultAxes ← on_font (CTFontCopyVariationAxes P) resultFont;
  resultVariation ← on_font (CTFontCopyVariation P) resultFont;
  printf "Result  : " [];;
  print_axes resultAxes resultVariation;;
  printf "\n" [];;
  originalAxes ← on_font (CTFontCopyVariationAxes P) (font testCase);
  originalVariation ← on_font (CTFontCopyVariation P) (font testCase);
  printf "Original: " [];;
  print_axes originalAxes originalVariation;;
  printf "\n" [];;
  let variationEqual := CFEqual_Dictionary P resultVariation originalVariation in
  printf "CFEqual(resultVariation, originalVariation): %s\n" [ArgString (bool_text variationEqual)];;
  fontEqual ← CFEqual_fonts resultFont (font testCase);
  printf "CFEqual(resultFont, originalFont): %s\n" [ArgString (bool_text fontEqual)];;
  fflush_stdout;;
  printf "\n" [];;
  mret {| omit_opsz := omit_opsz; axis_to_bump := axis_to_bump; wghtValue := wghtValue;
          requestedVariation := requestedVariation; resultFont := resultFont;
          resultVariation := resultVariation;
          variationEqual := variationEqual; fontEqual := fontEqual |}.

(** The body of the loop over the test cases (lines 108-302). *)
Definition run_case (testCase : TestCase (Font P)) : M (list (Trial (Font P))) :=
  let originalFont := font testCase in
  originalDescriptor ← on_font (CTFontCopyFontDescriptor P) originalFont;
  originalAxes ← on_font (CTFontCopyVariationAxes P) originalFont;
  originalVariation ← on_font (CTFontCopyVariation P) originalFont;
  printf "--------------------------\n" [];;
  printf "Case: %s\n" [ArgString (name testCase)];;
  printf "Original: " [];;
  originalResolvedVariation ← resolve_axes originalAxes originalVariation;
  printf "\n\n" [];;
  for_each [false; true] (λ omit_opsz,
  for_each [0; kOpszTag; kWdthTag] (λ axis_to_bump,
  for_each [100; 200; 300; 400; 500; 600; 700; 800; 900] (λ w,
    let wghtValue := CGFloat_of_int w in
    t ← trial testCase originalFont originalDescriptor originalAxes
          originalResolvedVariation omit_opsz axis_to_bump wghtValue;
    mret [t]))).

Definition SFNS : string := "/System/Library/Fonts/SFNS.ttf".

(** The array [testCases], its initializers evaluated in order. *)
Definition make_testCases : M (list (TestCase (Font P))) :=
  let f0 := make_ctfont_from_uifont 24 in
  f1 ← make_ctfont_from_file SFNS 24;
  let f2 := make_ctfont_from_uifont 17.00 in
  let f3 := make_ctfont_from_uifont 17.01 in
  let f4 := make_ctfont_from_uifont 95.99 in
  let f5 := make_ctfont_from_uifont 96.00 in
  mret [ {| font := f0; name := "SystemUI size 24" |};
         {| font := f1; name := SFNS |};
         {| font := f2; name := "SystemUI size 17.00" |};
         {| font := f3; name := "SystemUI size 17.01" |};
         {| font := f4; name := "SystemUI size 95.99" |};
         {| font := f5; name := "SystemUI size 96.00" |} ].

(** [int main()] *)
Definition main : M (list (Trial (Font P))) :=
  testCases ← make_testCases;
  for_each testCases run_case.

End Program.


(** ** The claims' vocabulary *)

(** The value an axis currently has on a font with the given variation
    dictionary: the explicit entry if there is one, else the default. *)
Definition resolved_value (variation : gmap Z float) (a : Axis) : float :=
  default (axis_default a) (variation !! axis_identifier a).

(** The first axis of the list that carries the identifier [t]. *)
Definition first_axis (t : Z) (axes : list Axis) : option Axis :=
  List.find (λ a, axis_identifier a =? t) axes.

(** What the program prints for one axis. *)
Definition axis_event (variation : gmap Z float) (a : Axis) : event :=
  Printf "(%s: %f) "
    [ArgString (tag_to_string (C.to_uint32 (axis_identifier a)));
     ArgDouble (resolved_value variation a)].

(** The parameters of the sweep, trial [i] of 54, in closed form. *)
Definition nth_parameters (i : nat) : bool * Z * float :=
  (bool_decide (27 ≤ i)%nat,
   nth ((i / 9) mod 3)%nat [0; kOpszTag; kWdthTag] 0,
   CGFloat_of_int (100 * (Z.of_nat (i mod 9) + 1))).

Definition parameters {F} (t : Trial F) : bool * Z * float :=
  (omit_opsz t, axis_to_bump t, wghtValue t).

(** The 32-bit value whose bytes are [a b c d], most significant first. *)
Definition tag_of_bytes (a b c d : Z) : Z := a * 2 ^ 24 + b * 2 ^ 16 + c * 2 ^ 8 + d.

(** The body of the request loop, for the axis it has read. *)
Definition request_loop_step (resolved : gmap Z float) (omit : bool) (bump : Z) (w : float)
    (originalAxis : Axis) (requestedVariation : gmap Z float) : M (gmap Z float) :=
  let tagNumber := axis_identifier originalAxis in
  let tagLong := CFNumberGetValue_long tagNumber in
  match resolved !! tagNumber with
  | None => raise AssertionFailed
  | Some currentDouble =>
      let valueDouble := currentDouble in
      if (tagLong =? kOpszTag) && omit then
        printf "#%s: %f# " [ArgString (tag_to_string (C.to_uint32 tagLong)); ArgDouble valueDouble];;
        mret requestedVariation
      else
        let valueDouble :=
          if tagLong =? bump then (valueDouble + FLT_0_0001)%float else valueDouble in
        let valueDouble :=
          if tagLong =? kWghtTag then w else valueDouble in
        printf "(%s: %f) " [ArgString (tag_to_string (C.to_uint32 tagLong)); ArgDouble valueDouble];;
        mret (CFDictionaryAddValue requestedVariation tagNumber valueDouble)
  end.

(** The number of lines of a trace printed with the given format. *)
Definition is_printf (format : string) (e : event) : bool :=
  match e with
  | Printf f _ => bool_decide (f = format)
  | _ => false
  end.

Definition count_lines (format : string) (tr : list event) : nat :=
  length (List.filter (is_printf format) tr).

(** The conversion specifications of a [printf] format, in order: the
    character after each [%]. *)
Fixpoint conversions (format : string) : list ascii :=
  match format with
  | String "%" (String c rest) => c :: conversions rest
  | String _ rest => conversions rest
  | EmptyString => []
  end.

(** Whether an argument is what the conversion expects: a string for [%s],
    a [double] for [%f]. *)
Definition fits (c : ascii) (arg : printf_arg) : bool :=
  match arg with
  | ArgString _ => bool_decide (c = "s"%char)
  | ArgDouble _ => bool_decide (c = "f"%char)
  end.

Fixpoint all_fit (cs : list ascii) (args : list printf_arg) : bool :=
  match cs, args with
  | [], [] => true
  | c :: cs', arg :: args' => fits c arg && all_fit cs' args'
  | _, _ => false
  end.

Definition well_formed (e : event) : bool :=
  match e with
  | Printf format args => all_fit (conversions format) args
  | _ => true
  end.

(** The trials a run of a test case went through. *)
Definition trials {B} (m : M (list B)) : list B :=
  match result m with
  | Done ts => ts
  | Fault _ => []
  end.

(** The loops over an array, as folds over its elements. *)
Fixpoint for_list {A S} (l : list A) (step : A → S → M S) (s : S) : M S :=
  match l with
  | [] => mret s
  | x :: l' => s' ← step x s; for_list l' step s'
  end.

(** The dictionary the first loop leaves in [originalResolvedVariation]. *)
Definition resolved_dictionary (axes : list Axis) (variation : gmap Z float) : gmap Z float :=
  fold_left (λ d a, CFDictionaryAddValue d (axis_identifier a) (resolved_value variation a))
    axes ∅.

(** The value requested for the axis [tag] whose baseline is [current]. *)
Definition requested_value (bump : Z) (w : float) (tag : Z) (current : float) : float :=
  if tag =? kWghtTag then w
  else if tag =? bump then (current + FLT_0_0001)%float
  else current.

(** Whether the request loop leaves the axis out. *)
Definition skipped (omit : bool) (a : Axis) : bool :=
  (axis_identifier a =? kOpszTag) && omit.

(** The dictionary the request loop builds, one axis at a time. *)
Definition request_step (resolved : gmap Z float) (omit : bool) (bump : Z) (w : float)
    (d : gmap Z float) (a : Axis) : gmap Z float :=
  match resolved !! axis_identifier a with
  | Some current =>
      if skipped omit a then d
      else CFDictionaryAddValue d (axis_identifier a)
             (requested_value bump w (axis_identifier a) current)
  | None => d
  end.

Definition request_dictionary (axes : list Axis) (resolved : gmap Z float)
    (omit : bool) (bump : Z) (w : float) : gmap Z float :=
  fold_left (request_step resolved omit bump w) axes ∅.

(** What the request loop prints for one axis. *)
Definition request_events (resolved : gmap Z float) (omit : bool) (bump : Z) (w : float)
    (a : Axis) : list event :=
  match resolved !! axis_identifier a with
  | Some current =>
      if skipped omit a
      then [Printf "#%s: %f# "
              [ArgString (tag_to_string (C.to_uint32 (axis_identifier a))); ArgDouble current]]
      else [Printf "(%s: %f) "
              [ArgString (tag_to_string (C.to_uint32 (axis_identifier a)));
               ArgDouble (requested_value bump w (axis_identifier a) current)]]
  | None => []
  end.

(** The last lines of a trial: the two reported booleans. *)
Definition report {F} (t : Trial F) : list event :=
  [Printf "CFEqual(resultVariation, originalVariation): %s\n" [ArgString (bool_text (variationEqual t))];
   Printf "CFEqual(resultFont, originalFont): %s\n" [ArgString (bool_text (fontEqual t))];
   Fflush;
   Printf "\n" []].

(** The lines of a trial that are not about one axis. *)
Definition trial_frame {F} (t : Trial F) : list event :=
  [Printf "Request : " []; Printf "\n" []; Fflush; Printf "Result  : " [];
   Printf "\n" []; Printf "Original: " []; Printf "\n" []] ++ report t.

(** The three nested loops of the sweep, outermost first. *)
Definition sweep {B} (body : bool → Z → float → list B) : list B :=
  flat_map (λ omit,
    flat_map (λ bump,
      flat_map (λ w, body omit bump (CGFloat_of_int w))
        [100; 200; 300; 400; 500; 600; 700; 800; 900])
      [0; kOpszTag; kWdthTag])
    [false; true].

Section Unfolded.

Context (P : CoreText).

(** The font a trial obtains, by the descriptor-level copy. *)
Definition derived_font (f : Font P) (requested : gmap Z float) : Font P :=
  CTFontCreateWithFontDescriptor P
    (CTFontDescriptorCreateCopyWithAttributes P (CTFontCopyFontDescriptor P f)
       {[ kCTFontVariationAttribute := requested ]})
    (CTFontGetSize P f).

(** The record of the trial with the given parameters on the font [f]. *)
Definition trial_record (f : Font P) (omit : bool) (bump : Z) (w : float) : Trial (Font P) :=
  let axes := CTFontCopyVariationAxes P f in
  let requested :=
    request_dictionary axes (resolved_dictionary axes (CTFontCopyVariation P f)) omit bump w in
  let rf := derived_font f requested in
  {| omit_opsz := omit; axis_to_bump := bump; wghtValue := w;
     requestedVariation := requested;
     resultFont := Some rf;
     resultVariation := CTFontCopyVariation P rf;
     variationEqual := CFEqual_Dictionary P (CTFontCopyVariation P rf) (CTFontCopyVariation P f);
     fontEqual := CFEqual_Font P rf f |}.

(** Everything a trial prints, as a function of its record. *)
Definition trial_trace (f : Font P) (t : Trial (Font P)) : list event :=
  let axes := CTFontCopyVariationAxes P f in
  let resolved := resolved_dictionary axes (CTFontCopyVariation P f) in
  [Printf "Request : " []]
  ++ concat (request_events resolved (omit_opsz t) (axis_to_bump t) (wghtValue t) <$> axes)
  ++ [Printf "\n" []; Fflush; Printf "Result  : " []]
  ++ (axis_event (resultVariation t)
        <$> from_option (CTFontCopyVariationAxes P) [] (resultFont t))
  ++ [Printf "\n" []; Printf "Original: " []]
  ++ (axis_event (CTFontCopyVariation P f) <$> axes)
  ++ [Printf "\n" []]
  ++ report t.

(** What a test case prints before its first trial. *)
Definition case_header (f : Font P) (name : string) : list event :=
  [Printf "--------------------------\n" [];
   Printf "Case: %s\n" [ArgString name];
   Printf "Original: " []]
  ++ (axis_event (CTFontCopyVariation P f) <$> CTFontCopyVariationAxes P f)
  ++ [Printf "\n\n" []].

End Unfolded.

(** The first test case, which is built before the font file is opened. *)
Definition first_case (P : CoreText) : TestCase (Font P) :=
  {| font := make_ctfont_from_uifont P 24; name := "SystemUI size 24" |}.

(** The fonts and names of the test cases when the font file opens. *)
Definition test_fonts (P : CoreText) (O : Posix) (fileHandle : FILE O)
  : list (Font P * string) :=
  [ (CTFontCreateUIFontForLanguage P 24, "SystemUI size 24");
    (CTFontCreateWithFontDescriptor P
       (CTFontManagerCreateFontDescriptorFromData P
          (CFDataCreateWithBytesNoCopy P
             (mmap O (C.to_size_t (fstat O (fileno O fileHandle)).2) (fileno O fileHandle))
             (C.to_long (C.to_size_t (fstat O (fileno O fileHandle)).2))))
       24, SFNS);
    (CTFontCreateUIFontForLanguage P 17.00, "SystemUI size 17.00");
    (CTFontCreateUIFontForLanguage P 17.01, "SystemUI size 17.01");
    (CTFontCreateUIFontForLanguage P 95.99, "SystemUI size 95.99");
    (CTFontCreateUIFontForLanguage P 96.00, "SystemUI size 96.00") ].

(** What a trial leaves besides the two reported booleans. *)
Definition request_and_result {F} (t : Trial F)
  : bool * Z * float * gmap Z float * option F * gmap Z float :=
  (parameters t, requestedVariation t, resultFont t, resultVariation t).

(** What is expected of the dictionary requested in a trial with the given
    parameters, on a font with the given axes and variation dictionary: its
    keys are the axis identifiers, without opsz when it is omitted; an entry
    holds the trial's weight under wght, else the resolved baseline of the
    first axis with that identifier, with [0.0001f] added under the bumped
    identifier. *)
Definition request_as_specified (axes : list Axis) (variation : gmap Z float)
    (omit : bool) (bump : Z) (w : float) (requested : gmap Z float) : Prop :=
  dom requested
  = list_to_set (axis_identifier <$> axes) ∖ (if omit then {[ kOpszTag ]} else ∅)
  ∧ ∀ tag value, requested !! tag = Some value →
      ∃ a, first_axis tag axes = Some a
        ∧ value = if tag =? kWghtTag then w
                  else if tag =? bump
                  then (resolved_value variation a + FLT_0_0001)%float
                  else resolved_value variation a.

(** A platform that differs from [P] in its equality predicates only. *)
Definition with_CFEqual (P : CoreText)
    (eq_dictionary : gmap Z float → gmap Z float → bool)
    (eq_font : Font P → Font P → bool) : CoreText :=
  {| Font := Font P; FontDescriptor := FontDescriptor P; Data := Data P;
     CFDataCreateWithBytesNoCopy := CFDataCreateWithBytesNoCopy P;
     CTFontManagerCreateFontDescriptorFromData := CTFontManagerCreateFontDescriptorFromData P;
     CTFontCreateWithFontDescriptor := CTFontCreateWithFontDescriptor P;
     CTFontCreateUIFontForLanguage := CTFontCreateUIFontForLanguage P;
     CTFontCopyFontDescriptor := CTFontCopyFontDescriptor P;
     CTFontCopyVariationAxes := CTFontCopyVariationAxes P;
     CTFontCopyVariation := CTFontCopyVariation P;
     CTFontGetSize := CTFontGetSize P;
     CTFontDescriptorCreateCopyWithAttributes := CTFontDescriptorCreateCopyWithAttributes P;
     CTFontDescriptorCreateWithAttributes := CTFontDescriptorCreateWithAttributes P;
     CTFontCreateCopyWithAttributes := CTFontCreateCopyWithAttributes P;
     CFEqual_Dictionary := eq_dictionary;
     CFEqual_Font := eq_font |}.

(** A platform that differs from [P] in the font-level copy only. *)
Definition with_font_level_copy (P : CoreText)
    (describe : gmap string (gmap Z float) → FontDescriptor P)
    (copy : Font P → float → FontDescriptor P → Font P) : CoreText :=
  {| Font := Font P; FontDescriptor := FontDescriptor P; Data := Data P;
     CFDataCreateWithBytesNoCopy := CFDataCreateWithBytesNoCopy P;
     CTFontManagerCreateFontDescriptorFromData := CTFontManagerCreateFontDescriptorFromData P;
     CTFontCreateWithFontDescriptor := CTFontCreateWithFontDescriptor P;
     CTFontCreateUIFontForLanguage := CTFontCreateUIFontForLanguage P;
     CTFontCopyFontDescriptor := CTFontCopyFontDescriptor P;
     CTFontCopyVariationAxes := CTFontCopyVariationAxes P;
     CTFontCopyVariation := CTFontCopyVariation P;
     CTFontGetSize := CTFontGetSize P;
     CTFontDescriptorCreateCopyWithAttributes := CTFontDescriptorCreateCopyWithAttributes P;
     CTFontDescriptorCreateWithAttributes := describe;
     CTFontCreateCopyWithAttributes := copy;
     CFEqual_Dictionary := CFEqual_Dictionary P;
     CFEqual_Font := CFEqual_Font P |}.

(** An output line with the reported boolean blanked out. *)
Definition redact (e : event) : event :=
  match e with
  | Printf format [ArgString _] =>
      if bool_decide (format = "CFEqual(resultVariation, originalVariation): %s\n"
                      ∨ format = "CFEqual(resultFont, originalFont): %s\n")
      then Printf format [] else e
  | _ => e
  end.

(** How a computation ended, without its value. *)
Definition ending {A} (m : M A) : option fault :=
  match result m with
  | Done _ => None
  | Fault f => Some f
  end.

(** ** Sample platforms *)

(** A small implementation of [CoreText] and two of [Posix], used to
    instantiate theorems that have hypotheses and to evaluate the request
    loop on concrete axes.  A font is a family, a size and a variation
    dictionary; a descriptor is the same record.  Nothing is claimed about
    CoreText from what this implementation does. *)
Module Sample.

Record face := {
  family : Z;
  point_size : float;
  variation : gmap Z float;
}.

Definition axes : list Axis :=
  [ {| axis_identifier := kWghtTag; axis_default := 400 |};
    {| axis_identifier := kOpszTag; axis_default := 17 |};
    {| axis_identifier := kWdthTag; axis_default := 100 |} ].

Definition with_attributes (d : face) (attributes : gmap string (gmap Z float)) : face :=
  {| family := family d; point_size := point_size d;
     variation := default (variation d) (attributes !! kCTFontVariationAttribute) |}.

Definition instantiate (d : face) (size : float) : face :=
  {| family := family d; point_size := size; variation := variation d |}.

(** Structural equality of variation dictionaries. *)
Definition dictionary_eqb (x y : gmap Z float) : bool :=
  bool_decide (dom x = dom y)
  && forallb (λ kv, match y !! kv.1 with
                    | Some v => PrimFloat.eqb kv.2 v
                    | None => false
                    end) (map_to_list x).

(** Font equality that looks at everything. *)
Definition font_eqb (x y : face) : bool :=
  (family x =? family y) && PrimFloat.eqb (point_size x) (point_size y)
  && dictionary_eqb (variation x) (variation y).

Definition platform (eq_font : face → face → bool) : CoreText :=
  {| Font := face; FontDescriptor := face; Data := Z * Z;
     CFDataCreateWithBytesNoCopy := λ addr len, (addr, len);
     CTFontManagerCreateFontDescriptorFromData := λ data,
       {| family := 2; point_size := 12; variation := ∅ |};
     CTFontCreateWithFontDescriptor := instantiate;
     CTFontCreateUIFontForLanguage := λ size,
       {| family := 1; point_size := size; variation := {[ kOpszTag := 17%float ]} |};
     CTFontCopyFontDescriptor := λ f, f;
     CTFontCopyVariationAxes := λ _, axes;
     CTFontCopyVariation := variation;
     CTFontGetSize := point_size;
     CTFontDescriptorCreateCopyWithAttributes := with_attributes;
     CTFontDescriptorCreateWithAttributes := with_attributes
       {| family := 0; point_size := 12; variation := ∅ |};
     CTFontCreateCopyWithAttributes := λ f size d,
       {| family := family f; point_size := point_size f; variation := variation d |};
     CFEqual_Dictionary := dictionary_eqb;
     CFEqual_Font := eq_font |}.

Definition consistent : CoreText := platform font_eqb.

(** A file system without the font file, and one with it. *)
Definition no_file : Posix :=
  {| FILE := unit; fopen := λ _ _, None; fileno := λ _, 3;
     fstat := λ _, (0, 0); mmap := λ _ _, -1 |}.

Definition unreadable_file : Posix :=
  {| FILE := unit; fopen := λ _ _, Some tt; fileno := λ _, 3;
     fstat := λ _, (-1, 0); mmap := λ _ _, -1 |}.

Definition system_font : TestCase face :=
  {| font := make_ctfont_from_uifont consistent 24; name := "SystemUI size 24" |}.

End Sample.

(** * Proofs *)

(** ** Running computations *)

Lemma ret_bind {A B} (a : A) (k : A → M B) : mret a ≫= k = k a.
Proof. unfold mbind, mret, M_bind, M_ret. simpl. by destruct (k a). Qed.

Lemma bind_Done {A B} (t : list event) (a : A) (k : A → M B) :
  mkM t (Done a) ≫= k = mkM (t ++ trace (k a)) (result (k a)).
Proof. reflexivity. Qed.

Lemma bind_Fault {A B} (t : list event) (f : fault) (k : A → M B) :
  mkM t (Fault f) ≫= k = mkM t (Fault f).
Proof. reflexivity. Qed.

Lemma on_font_Some {P : CoreText} {A} (call : Font P → A) (f : Font P) :
  on_font call (Some f) = mkM [] (Done (call f)).
Proof. reflexivity. Qed.

Lemma CFArrayGetValueAtIndex_middle {A} (prefix l : list A) (a : A) :
  CFArrayGetValueAtIndex (prefix ++ a :: l) (length prefix) = mret a.
Proof. unfold CFArrayGetValueAtIndex. by rewrite list_lookup_middle. Qed.

(** An index loop that reads [array[i]] first is a fold over the array. *)
Lemma for_loop_array {A S} (step : A → S → M S) (l prefix : list A) (s : S) :
  for_loop (length l) (length prefix)
    (λ i s, x ← CFArrayGetValueAtIndex (prefix ++ l) i; step x s) s
  = for_list l step s.
Proof.
  revert prefix s. induction l as [|a l IH]; intros prefix s; [reflexivity|].
  cbn [length for_loop for_list].
  rewrite CFArrayGetValueAtIndex_middle, ret_bind.
  destruct (step a s) as [t [s'|f]]; [|reflexivity].
  rewrite !bind_Done. specialize (IH (prefix ++ [a]) s').
  rewrite <- app_assoc, length_app, Nat.add_1_r in IH. cbn [app] in IH.
  by rewrite IH.
Qed.

Lemma for_loop_array0 {A S} (step : A → S → M S) (l : list A) (s : S) :
  for_loop (length l) 0 (λ i s, x ← CFArrayGetValueAtIndex l i; step x s) s
  = for_list l step s.
Proof. exact (for_loop_array step l [] s). Qed.

(** A fold whose every step succeeds: the outputs in order, the state folded. *)
Lemma for_list_Done {A S} (step : A → S → M S) (ev : A → list event) (next : S → A → S)
    (l : list A) (s : S) :
  (∀ x s, x ∈ l → step x s = mkM (ev x) (Done (next s x))) →
  for_list l step s = mkM (concat (ev <$> l)) (Done (fold_left next l s)).
Proof.
  revert s. induction l as [|a l IH]; intros s Hstep; [reflexivity|].
  cbn [for_list fmap list_fmap concat fold_left].
  rewrite Hstep by left. rewrite bind_Done, IH.
  - reflexivity.
  - intros x s' Hx. apply Hstep. by right.
Qed.

(** A range-based loop whose every iteration succeeds. *)
Lemma for_each_Done {A B} (body : A → M (list B)) (ev : A → list event) (out : A → list B)
    (l : list A) :
  (∀ x, x ∈ l → body x = mkM (ev x) (Done (out x))) →
  for_each l body = mkM (flat_map ev l) (Done (flat_map out l)).
Proof.
  induction l as [|a l IH]; intros Hbody; [reflexivity|].
  cbn [for_each flat_map].
  rewrite Hbody by left. rewrite bind_Done, IH.
  - cbn. by rewrite app_nil_r.
  - intros x Hx. apply Hbody. by right.
Qed.

Lemma concat_singletons {A B} (f : A → B) (l : list A) :
  concat ((λ a, [f a]) <$> l) = f <$> l.
Proof. induction l as [|a l IH]; [reflexivity|]. cbn. by rewrite IH. Qed.

(** ** The three loops over the axes *)

Lemma print_axes_unfold (axes : list Axis) (variation : gmap Z float) :
  print_axes axes variation = mkM (axis_event variation <$> axes) (Done tt).
Proof.
  unfold print_axes.
  rewrite (for_loop_array0 (λ axis (_ : unit),
    printf "(%s: %f) "
      [ArgString (tag_to_string (C.to_uint32 (CFNumberGetValue_long (axis_identifier axis))));
       ArgDouble (resolved_value variation axis)])).
  rewrite (for_list_Done _ (λ a, [axis_event variation a]) (λ s _, s)).
  - rewrite concat_singletons. f_equal. f_equal. by induction axes.
  - intros a [] _. reflexivity.
Qed.

Lemma resolve_axes_unfold (axes : list Axis) (variation : gmap Z float) :
  resolve_axes axes variation
  = mkM (axis_event variation <$> axes) (Done (resolved_dictionary axes variation)).
Proof.
  unfold resolve_axes.
  rewrite (for_loop_array0 (λ axis d,
    printf "(%s: %f) "
      [ArgString (tag_to_string (C.to_uint32 (CFNumberGetValue_long (axis_identifier axis))));
       ArgDouble (resolved_value variation axis)];;
    mret (CFDictionaryAddValue d (axis_identifier axis) (resolved_value variation axis)))).
  rewrite (for_list_Done _ (λ a, [axis_event variation a])
             (λ d a, CFDictionaryAddValue d (axis_identifier a) (resolved_value variation a))).
  - by rewrite concat_singletons.
  - intros a d _. reflexivity.
Qed.

Lemma build_request_unfold (axes : list Axis) (resolved : gmap Z float)
    (omit : bool) (bump : Z) (w : float) :
  (∀ a, a ∈ axes → is_Some (resolved !! axis_identifier a)) →
  build_request axes resolved omit bump w
  = mkM (concat (request_events resolved omit bump w <$> axes))
        (Done (request_dictionary axes resolved omit bump w)).
Proof.
  intros Hall. unfold build_request.
  rewrite (for_loop_array0 (λ originalAxis requestedVariation,
      let tagNumber := axis_identifier originalAxis in
      let tagLong := CFNumberGetValue_long tagNumber in
      match resolved !! tagNumber with
      | None => raise AssertionFailed
      | Some currentDouble =>
          let valueDouble := currentDouble in
          if (tagLong =? kOpszTag) && omit then
            printf "#%s: %f# " [ArgString (tag_to_string (C.to_uint32 tagLong)); ArgDouble valueDouble];;
            mret requestedVariation
          else
            let valueDouble :=
              if tagLong =? bump then (valueDouble + FLT_0_0001)%float else valueDouble in
            let valueDouble :=
              if tagLong =? kWghtTag then w else valueDouble in
            printf "(%s: %f) " [ArgString (tag_to_string (C.to_uint32 tagLong)); ArgDouble valueDouble];;
            mret (CFDictionaryAddValue requestedVariation tagNumber valueDouble)
      end)).
  apply for_list_Done.
  intros a d Ha. destruct (Hall a Ha) as [current Hcur].
  unfold request_events, request_step, skipped, requested_value, CFNumberGetValue_long.
  cbv zeta. rewrite Hcur.
  destruct ((axis_identifier a =? kOpszTag) && omit); [reflexivity|].
  destruct (axis_identifier a =? kWghtTag), (axis_identifier a =? bump); reflexivity.
Qed.

(** ** The dictionaries the loops build *)

Lemma CFDictionaryAddValue_lookup `{Countable K} {V} (d : gmap K V) (k k' : K) (v : V) :
  CFDictionaryAddValue d k v !! k'
  = match d !! k' with
    | Some x => Some x
    | None => if decide (k = k') then Some v else None
    end.
Proof.
  unfold CFDictionaryAddValue. destruct (d !! k) as [x|] eqn:Hk.
  - destruct (d !! k') eqn:Hk'; [reflexivity|].
    destruct (decide (k = k')); [congruence|reflexivity].
  - rewrite lookup_insert. destruct (decide (k = k')) as [->|].
    + by rewrite Hk.
    + by destruct (d !! k').
Qed.

Lemma first_axis_Some (t : Z) (axes : list Axis) (a : Axis) :
  first_axis t axes = Some a → a ∈ axes ∧ axis_identifier a = t.
Proof.
  unfold first_axis. intros Hfind. apply find_some in Hfind as [Hin Heq].
  split; [by apply list_elem_of_In | by apply Z.eqb_eq].
Qed.

Lemma first_axis_None (t : Z) (axes : list Axis) :
  first_axis t axes = None ↔ t ∉ axis_identifier <$> axes.
Proof.
  unfold first_axis. induction axes as [|a l IH]; cbn.
  - split; [intros _; apply not_elem_of_nil | done].
  - destruct (axis_identifier a =? t) eqn:Heq.
    + apply Z.eqb_eq in Heq. split; [done|]. intros Hnot. exfalso. apply Hnot. subst. left.
    + apply Z.eqb_neq in Heq. rewrite IH, not_elem_of_cons. intuition congruence.
Qed.

Lemma first_axis_is_Some (t : Z) (axes : list Axis) :
  is_Some (first_axis t axes) ↔ t ∈ axis_identifier <$> axes.
Proof.
  rewrite <- not_eq_None_Some, first_axis_None.
  destruct (decide (t ∈ axis_identifier <$> axes)); naive_solver.
Qed.

(** An entry of [originalResolvedVariation] is the resolved value of the
    first axis with that identifier. *)
Lemma resolved_dictionary_lookup (axes : list Axis) (variation : gmap Z float) (t : Z) :
  resolved_dictionary axes variation !! t = resolved_value variation <$> first_axis t axes.
Proof.
  unfold resolved_dictionary.
  enough (∀ d0, fold_left (λ d a, CFDictionaryAddValue d (axis_identifier a)
                                 (resolved_value variation a)) axes d0 !! t
                = match d0 !! t with
                  | Some x => Some x
                  | None => resolved_value variation <$> first_axis t axes
                  end) as Hgen by (by rewrite Hgen, lookup_empty).
  induction axes as [|a l IH]; intros d0; cbn [fold_left].
  - by destruct (d0 !! t).
  - rewrite IH, CFDictionaryAddValue_lookup. unfold first_axis. cbn [find].
    destruct (d0 !! t); [reflexivity|].
    destruct (decide (axis_identifier a = t)) as [Heq|Hne].
    + apply Z.eqb_eq in Heq. by rewrite Heq.
    + apply Z.eqb_neq in Hne. by rewrite Hne.
Qed.

Lemma resolved_dictionary_complete (axes : list Axis) (variation : gmap Z float) (a : Axis) :
  a ∈ axes → is_Some (resolved_dictionary axes variation !! axis_identifier a).
Proof.
  intros Ha. rewrite resolved_dictionary_lookup, fmap_is_Some, first_axis_is_Some.
  by apply list_elem_of_fmap_2.
Qed.

(** An entry of a dictionary built by [request_step] depends on its key only. *)
Lemma request_dictionary_lookup_any (axes : list Axis) (resolved : gmap Z float)
    (omit : bool) (bump : Z) (w : float) (t : Z) :
  request_dictionary axes resolved omit bump w !! t
  = if decide (t ∈ axis_identifier <$> axes) then
      if (t =? kOpszTag) && omit then None
      else requested_value bump w t <$> resolved !! t
    else None.
Proof.
  unfold request_dictionary.
  enough (∀ d0, fold_left (request_step resolved omit bump w) axes d0 !! t
                = match d0 !! t with
                  | Some x => Some x
                  | None =>
                      if decide (t ∈ axis_identifier <$> axes) then
                        if (t =? kOpszTag) && omit then None
                        else requested_value bump w t <$> resolved !! t
                      else None
                  end) as Hgen by (by rewrite Hgen, lookup_empty).
  induction axes as [|a l IH]; intros d0; cbn [fold_left].
  - destruct (d0 !! t); [reflexivity|]. by rewrite decide_False by apply not_elem_of_nil.
  - rewrite IH. clear IH. rewrite fmap_cons.
    assert (request_step resolved omit bump w d0 a !! t
            = match d0 !! t with
              | Some x => Some x
              | None =>
                  if decide (axis_identifier a = t) then
                    if (t =? kOpszTag) && omit then None
                    else requested_value bump w t <$> resolved !! t
                  else None
              end) as ->.
    { unfold request_step, skipped.
      destruct (decide (axis_identifier a = t)) as [->|Hne].
      - destruct (resolved !! t) as [cur|]; cbn.
        + destruct ((t =? kOpszTag) && omit); [by destruct (d0 !! t)|].
          rewrite CFDictionaryAddValue_lookup. by rewrite decide_True.
        + destruct (d0 !! t); [reflexivity|]. by destruct ((t =? kOpszTag) && omit).
      - destruct (resolved !! axis_identifier a); [|by destruct (d0 !! t)].
        destruct ((axis_identifier a =? kOpszTag) && omit); [by destruct (d0 !! t)|].
        rewrite CFDictionaryAddValue_lookup. by rewrite decide_False. }
    destruct (d0 !! t); [reflexivity|].
    destruct (decide (axis_identifier a = t)) as [Heq|Hne].
    + rewrite (decide_True (P := t ∈ _ :: _)) by (rewrite <- Heq; left).
      destruct ((t =? kOpszTag) && omit); [by case_decide|].
      destruct (resolved !! t); [reflexivity|]. by case_decide.
    + destruct (decide (t ∈ axis_identifier <$> l)) as [Hin|Hnin].
      * by rewrite decide_True by (by right).
      * rewrite decide_False; [reflexivity|]. rewrite not_elem_of_cons. naive_solver.
Qed.

(** An entry of [requestedVariation], for the dictionary of baselines the
    first loop built from the same axes. *)
Lemma request_dictionary_lookup (axes : list Axis) (variation : gmap Z float)
    (omit : bool) (bump : Z) (w : float) (t : Z) :
  request_dictionary axes (resolved_dictionary axes variation) omit bump w !! t
  = match first_axis t axes with
    | Some a =>
        if (t =? kOpszTag) && omit then None
        else Some (requested_value bump w t (resolved_value variation a))
    | None => None
    end.
Proof.
  rewrite request_dictionary_lookup_any, resolved_dictionary_lookup.
  destruct (first_axis t axes) as [a|] eqn:Hfirst.
  - rewrite decide_True by (apply first_axis_is_Some; by rewrite Hfirst).
    reflexivity.
  - apply first_axis_None in Hfirst. by rewrite decide_False.
Qed.

Lemma request_dictionary_dom (axes : list Axis) (variation : gmap Z float)
    (omit : bool) (bump : Z) (w : float) :
  dom (request_dictionary axes (resolved_dictionary axes variation) omit bump w)
  = list_to_set (axis_identifier <$> axes) ∖ (if omit then {[ kOpszTag ]} else ∅).
Proof.
  apply set_eq. intros t.
  rewrite elem_of_dom, request_dictionary_lookup, elem_of_difference, elem_of_list_to_set.
  rewrite <- first_axis_is_Some.
  destruct (first_axis t axes) as [a|].
  - destruct (t =? kOpszTag) eqn:Heq, omit; cbn.
    + apply Z.eqb_eq in Heq. subst t. split; [by intros [? ?]|]. intros [_ Hnot].
      exfalso. apply Hnot. by apply elem_of_singleton.
    + split; [|by eauto]. intros _. split; [by eauto|]. apply not_elem_of_empty.
    + apply Z.eqb_neq in Heq. split; [|by eauto]. intros _. split; [by eauto|].
      by rewrite elem_of_singleton.
    + split; [|by eauto]. intros _. split; [by eauto|]. apply not_elem_of_empty.
  - split; [by intros [? ?]|]. by intros [[? ?] _].
Qed.

(** ** A trial and a test case, step by step *)

Ltac run_binds :=
  repeat (rewrite bind_Done; cbv beta; cbn [trace result]).

Lemma derive_font_unfold (P : CoreText) (f : Font P) (attributes : gmap string (gmap Z float)) :
  derive_font P (Some f) (CTFontCopyFontDescriptor P f) attributes
  = mkM [Fflush]
      (Done (Some (CTFontCreateWithFontDescriptor P
                     (CTFontDescriptorCreateCopyWithAttributes P (CTFontCopyFontDescriptor P f)
                        attributes)
                     (CTFontGetSize P f)))).
Proof. reflexivity. Qed.

Lemma attributes_singleton (requested : gmap Z float) :
  CFDictionaryAddValue (∅ : gmap string (gmap Z float)) kCTFontVariationAttribute requested
  = {[ kCTFontVariationAttribute := requested ]}.
Proof. unfold CFDictionaryAddValue. by rewrite lookup_empty, insert_empty. Qed.

Lemma printf_bind {B} (format : string) (args : list printf_arg) (k : unit → M B) :
  printf format args ≫= k = mkM (Printf format args :: trace (k tt)) (result (k tt)).
Proof. reflexivity. Qed.

Lemma on_font_bind {P : CoreText} {A B} (call : Font P → A) (f : Font P) (k : A → M B) :
  on_font call (Some f) ≫= k = k (call f).
Proof. apply ret_bind. Qed.

Lemma trial_unfold (P : CoreText) (f : Font P) (label : string)
    (omit : bool) (bump : Z) (w : float) :
  trial P {| font := Some f; name := label |} (Some f) (CTFontCopyFontDescriptor P f)
    (CTFontCopyVariationAxes P f)
    (resolved_dictionary (CTFontCopyVariationAxes P f) (CTFontCopyVariation P f))
    omit bump w
  = mkM (trial_trace P f (trial_record P f omit bump w))
        (Done (trial_record P f omit bump w)).
Proof.
  unfold trial. rewrite printf_bind.
  rewrite build_request_unfold by apply resolved_dictionary_complete.
  rewrite bind_Done. cbn [trace result]. rewrite printf_bind. cbv zeta.
  rewrite attributes_singleton, derive_font_unfold.
  rewrite bind_Done. cbn [trace result font].
  rewrite !on_font_bind. rewrite printf_bind, print_axes_unfold, bind_Done.
  cbn [trace result]. rewrite printf_bind, printf_bind, print_axes_unfold, bind_Done.
  reflexivity.
Qed.

Lemma run_case_null (P : CoreText) (label : string) :
  run_case P {| font := None; name := label |} = mkM [] (Fault NullDereference).
Proof. reflexivity. Qed.

Lemma run_case_unfold (P : CoreText) (f : Font P) (label : string) :
  run_case P {| font := Some f; name := label |}
  = mkM (case_header P f label
         ++ sweep (λ omit bump w, trial_trace P f (trial_record P f omit bump w)))
        (Done (sweep (λ omit bump w, [trial_record P f omit bump w]))).
Proof.
  unfold run_case. cbn [font name]. rewrite !on_font_bind.
  rewrite !printf_bind, resolve_axes_unfold, bind_Done. cbn [trace result].
  rewrite printf_bind.
  rewrite (for_each_Done _
    (λ omit, flat_map (λ bump, flat_map (λ w,
       trial_trace P f (trial_record P f omit bump (CGFloat_of_int w)))
       [100; 200; 300; 400; 500; 600; 700; 800; 900]) [0; kOpszTag; kWdthTag])
    (λ omit, flat_map (λ bump, flat_map (λ w,
       [trial_record P f omit bump (CGFloat_of_int w)])
       [100; 200; 300; 400; 500; 600; 700; 800; 900]) [0; kOpszTag; kWdthTag])).
  - cbn [trace result]. unfold case_header, sweep. f_equal.
    rewrite <- !app_assoc. reflexivity.
  - intros omit _. apply for_each_Done. intros bump _. apply for_each_Done. intros w _.
    cbv zeta. rewrite trial_unfold, bind_Done. cbn [trace result mret M_ret].
    by rewrite app_nil_r.
Qed.

(** ** The font constructors and [main] *)

Lemma make_ctfont_from_file_missing (P : CoreText) (O : Posix) (file : string) (size : float) :
  fopen O file "rb" = None →
  make_ctfont_from_file P O file size
  = mkM [Printf "Could not open: %s\n" [ArgString file]] (Done None).
Proof. intros Hopen. unfold make_ctfont_from_file. by rewrite Hopen. Qed.

Lemma make_ctfont_from_file_opened (P : CoreText) (O : Posix) (file : string) (size : float)
    (fileHandle : FILE O) :
  fopen O file "rb" = Some fileHandle →
  make_ctfont_from_file P O file size
  = mkM [] (Done (Some (CTFontCreateWithFontDescriptor P
      (CTFontManagerCreateFontDescriptorFromData P
         (CFDataCreateWithBytesNoCopy P
            (mmap O (C.to_size_t (fstat O (fileno O fileHandle)).2) (fileno O fileHandle))
            (C.to_long (C.to_size_t (fstat O (fileno O fileHandle)).2))))
      size))).
Proof.
  intros Hopen. unfold make_ctfont_from_file. rewrite Hopen.
  by destruct (fstat O (fileno O fileHandle)).
Qed.

Lemma main_missing_file (P : CoreText) (O : Posix) :
  fopen O SFNS "rb" = None →
  main P O
  = mkM (Printf "Could not open: %s\n" [ArgString SFNS] :: trace (run_case P (first_case P)))
        (Fault NullDereference).
Proof.
  intros Hopen. unfold main, make_testCases.
  rewrite (make_ctfont_from_file_missing _ _ _ _ Hopen).
  rewrite bind_Done. cbv zeta. cbn [trace result mret M_ret app]. rewrite bind_Done.
  cbn [for_each trace result]. unfold first_case, make_ctfont_from_uifont.
  rewrite (run_case_unfold P _ "SystemUI size 24"), bind_Done. cbv beta.
  rewrite run_case_null, bind_Fault.
  cbn [trace result app]. by rewrite app_nil_r.
Qed.

Lemma main_opened_file (P : CoreText) (O : Posix) (fileHandle : FILE O) :
  fopen O SFNS "rb" = Some fileHandle →
  main P O
  = mkM (flat_map (λ c, trace (run_case P {| font := Some c.1; name := c.2 |}))
           (test_fonts P O fileHandle))
        (Done (flat_map (λ c, trials (run_case P {| font := Some c.1; name := c.2 |}))
                 (test_fonts P O fileHandle))).
Proof.
  intros Hopen. unfold main, make_testCases.
  rewrite (make_ctfont_from_file_opened _ _ _ _ _ Hopen).
  rewrite bind_Done. cbv zeta. cbn [trace result mret M_ret app]. rewrite bind_Done.
  cbn [trace result app]. unfold make_ctfont_from_uifont.
  rewrite (for_each_Done _
    (λ c, trace (run_case P c)) (λ c, trials (run_case P c))).
  - reflexivity.
  - intros c Hc. repeat (apply elem_of_cons in Hc as [->|Hc]);
      [by rewrite run_case_unfold ..|by apply elem_of_nil in Hc].
Qed.

(** ** The sweep *)

Lemma sweep_Forall {B} (Q : B → Prop) (body : bool → Z → float → list B) :
  (∀ omit bump w, bump ∈ [0; kOpszTag; kWdthTag] → Forall Q (body omit bump w)) →
  Forall Q (sweep body).
Proof.
  intros Hbody. unfold sweep.
  apply Forall_flat_map, Forall_forall. intros omit _.
  apply Forall_flat_map, Forall_forall. intros bump Hbump.
  apply Forall_flat_map, Forall_forall. intros w _.
  by apply Hbody.
Qed.

Lemma fmap_flat_map {A B C} (g : B → C) (h : A → list B) (l : list A) :
  g <$> flat_map h l = flat_map (λ x, g <$> h x) l.
Proof. induction l as [|a l IH]; [reflexivity|]. cbn. by rewrite fmap_app, IH. Qed.

Lemma fmap_sweep {B C} (g : B → C) (body : bool → Z → float → list B) :
  g <$> sweep body = sweep (λ omit bump w, g <$> body omit bump w).
Proof.
  unfold sweep. rewrite fmap_flat_map. apply flat_map_ext. intros omit.
  rewrite fmap_flat_map. apply flat_map_ext. intros bump.
  by rewrite fmap_flat_map.
Qed.

Lemma sweep_ext {B} (body body' : bool → Z → float → list B) :
  (∀ omit bump w, body omit bump w = body' omit bump w) → sweep body = sweep body'.
Proof.
  intros Hext. unfold sweep. apply flat_map_ext. intros omit.
  apply flat_map_ext. intros bump. apply flat_map_ext. intros w. apply Hext.
Qed.

(** ** Tags, byte by byte *)

Lemma land_shifted_low (hi lo n : Z) :
  0 ≤ n → 0 ≤ lo < 2 ^ n → Z.land (hi * 2 ^ n) lo = 0.
Proof.
  intros Hn [Hlo0 Hlo]. apply Z.bits_inj'. intros k Hk.
  rewrite Z.land_spec, Z.bits_0.
  destruct (Z.lt_ge_cases k n) as [Hlow|Hhigh].
  - by rewrite Z.mul_pow2_bits_low.
  - destruct (Z.eq_dec lo 0) as [->|Hpos].
    + by rewrite Z.bits_0, andb_false_r.
    + rewrite (Z.bits_above_log2 lo k), andb_false_r; [reflexivity|lia|].
      apply Z.log2_lt_pow2; [lia|].
      apply Z.lt_le_trans with (2 ^ n); [lia|]. apply Z.pow_le_mono_r; lia.
Qed.

Lemma lor_shifted_low (hi lo n : Z) :
  0 ≤ n → 0 ≤ lo < 2 ^ n → Z.lor (hi * 2 ^ n) lo = hi * 2 ^ n + lo.
Proof.
  intros Hn Hlo. rewrite <- Z.lxor_lor by by apply land_shifted_low.
  symmetry. apply Z.add_nocarry_lxor. by apply land_shifted_low.
Qed.

Lemma lor_bytes (a b c d : Z) :
  0 ≤ a < 256 → 0 ≤ b < 256 → 0 ≤ c < 256 → 0 ≤ d < 256 →
  Z.lor (Z.lor (Z.lor (a * 16777216) (b * 65536)) (c * 256)) d
  = a * 16777216 + b * 65536 + c * 256 + d.
Proof.
  intros Ha Hb Hc Hd.
  change 16777216 with (2 ^ 24).
  rewrite (lor_shifted_low a (b * 65536) 24 ltac:(lia) ltac:(lia)).
  replace (a * 2 ^ 24 + b * 65536) with ((a * 256 + b) * 2 ^ 16) by lia.
  rewrite (lor_shifted_low (a * 256 + b) (c * 256) 16 ltac:(lia) ltac:(lia)).
  replace ((a * 256 + b) * 2 ^ 16 + c * 256) with ((a * 65536 + b * 256 + c) * 2 ^ 8) by lia.
  rewrite (lor_shifted_low (a * 65536 + b * 256 + c) d 8 ltac:(lia) ltac:(lia)).
  lia.
Qed.

Lemma tag_to_string_bytes (a b c d : Z) :
  0 ≤ a < 256 → 0 ≤ b < 256 → 0 ≤ c < 256 → 0 ≤ d < 256 →
  tag_to_string (tag_of_bytes a b c d)
  = C.cstring [C.to_char a; C.to_char b; C.to_char c; C.to_char d; 0].
Proof.
  intros Ha Hb Hc Hd. unfold tag_to_string, tag_of_bytes. cbv zeta.
  rewrite !Z.shiftr_land.
  change (Z.shiftr 0xff000000 24) with (Z.ones 8).
  change (Z.shiftr 0xff0000 16) with (Z.ones 8).
  change (Z.shiftr 0xff00 8) with (Z.ones 8).
  change 0xff with (Z.ones 8).
  rewrite !Z.land_ones, !Z.shiftr_div_pow2 by lia.
  change (2 ^ 24) with 16777216. change (2 ^ 16) with 65536. change (2 ^ 8) with 256.
  replace ((a * 16777216 + b * 65536 + c * 256 + d) / 16777216 mod 256) with a
    by (Z.div_mod_to_equations; lia).
  replace ((a * 16777216 + b * 65536 + c * 256 + d) / 65536 mod 256) with b
    by (Z.div_mod_to_equations; lia).
  replace ((a * 16777216 + b * 65536 + c * 256 + d) / 256 mod 256) with c
    by (Z.div_mod_to_equations; lia).
  replace ((a * 16777216 + b * 65536 + c * 256 + d) mod 256) with d
    by (Z.div_mod_to_equations; lia).
  reflexivity.
Qed.

(** [make_tag] on characters of which the last three are not negative. *)
Lemma make_tag_bytes (a b c d : Z) :
  -128 ≤ a ≤ 127 → 0 ≤ b ≤ 127 → 0 ≤ c ≤ 127 → 0 ≤ d ≤ 127 →
  make_tag a b c d = tag_of_bytes (C.wrap 8 a) b c d.
Proof.
  intros Ha Hb Hc Hd. unfold make_tag, tag_of_bytes, C.to_uint32, C.wrap.
  rewrite !Z.shiftl_mul_pow2 by lia.
  change (2 ^ 32) with 4294967296. change (2 ^ 24) with 16777216.
  change (2 ^ 16) with 65536. change (2 ^ 8) with 256.
  replace ((a mod 4294967296 * 16777216) mod 4294967296) with (a mod 256 * 16777216)
    by (Z.div_mod_to_equations; lia).
  replace ((b mod 4294967296 * 65536) mod 4294967296) with (b * 65536)
    by (Z.div_mod_to_equations; lia).
  replace ((c mod 4294967296 * 256) mod 4294967296) with (c * 256)
    by (Z.div_mod_to_equations; lia).
  replace (d mod 4294967296) with d by (Z.div_mod_to_equations; lia).
  assert (0 ≤ a mod 256 < 256) as Ha' by (apply Z.mod_pos_bound; lia).
  apply lor_bytes; lia.
Qed.

Lemma to_char_small (b : Z) : 0 ≤ b ≤ 127 → C.to_char b = b.
Proof.
  intros Hb. unfold C.to_char, C.swrap. change (2 ^ (8 - 1)) with 128.
  change (2 ^ 8) with 256. Z.div_mod_to_equations. lia.
Qed.

Lemma to_char_range (a : Z) : -128 ≤ C.to_char a ≤ 127.
Proof.
  unfold C.to_char, C.swrap. change (2 ^ (8 - 1)) with 128.
  change (2 ^ 8) with 256. Z.div_mod_to_equations. lia.
Qed.

Lemma wrap_to_char (a : Z) : C.wrap 8 (C.to_char a) = C.wrap 8 a.
Proof.
  unfold C.to_char, C.swrap, C.wrap. change (2 ^ (8 - 1)) with 128.
  change (2 ^ 8) with 256. Z.div_mod_to_equations. lia.
Qed.

Lemma to_char_wrap (a : Z) : C.to_char (C.wrap 8 a) = C.to_char a.
Proof.
  unfold C.to_char, C.swrap, C.wrap. change (2 ^ (8 - 1)) with 128.
  change (2 ^ 8) with 256. Z.div_mod_to_equations. lia.
Qed.

Lemma to_char_idem (a : Z) : C.to_char (C.to_char a) = C.to_char a.
Proof.
  unfold C.to_char, C.swrap. change (2 ^ (8 - 1)) with 128.
  change (2 ^ 8) with 256. Z.div_mod_to_equations. lia.
Qed.

Lemma to_char_nonzero (a : Z) : 0 < a ≤ 255 → C.to_char a ≠ 0.
Proof.
  intros Ha. unfold C.to_char, C.swrap. change (2 ^ (8 - 1)) with 128.
  change (2 ^ 8) with 256. Z.div_mod_to_equations. lia.
Qed.

Lemma cstring_four (a b c d : Z) :
  a ≠ 0 → b ≠ 0 → c ≠ 0 → d ≠ 0 →
  C.cstring [a; b; c; d; 0] = four_chars a b c d.
Proof.
  intros Ha Hb Hc Hd. cbn [C.cstring].
  apply Z.eqb_neq in Ha, Hb, Hc, Hd. by rewrite Ha, Hb, Hc, Hd.
Qed.

Lemma four_chars_to_char (a b c d : Z) :
  four_chars (C.to_char a) (C.to_char b) (C.to_char c) (C.to_char d) = four_chars a b c d.
Proof. unfold four_chars, C.ascii_of_char. by rewrite !wrap_to_char. Qed.

(** * The claims *)

(** C10, as stated, fails: on macOS [char] is signed, so a character above
    0x7f in the second position is sign-extended by [make_tag] and overwrites
    the first byte of the tag.  For the code units 0x41 0x80 0x41 0x41, all
    nonzero and at most 0xff, the round trip returns a string that starts
    with the byte 0xff instead of 0x41. *)
Lemma tag_round_trip_fails_above_0x7f :
  (0 < 0x41 ≤ 0xff ∧ 0 < 0x80 ≤ 0xff)
  ∧ tag_to_string (make_tag (C.to_char 0x41) (C.to_char 0x80) (C.to_char 0x41) (C.to_char 0x41))
    = four_chars 0xff 0x80 0x41 0x41
  ∧ four_chars 0xff 0x80 0x41 0x41 ≠ four_chars 0x41 0x80 0x41 0x41.
Proof. repeat split; [lia..|discriminate]. Qed.

(** C10, amended: for code units [a b c d], each nonzero, [a] at most 0xff
    and [b], [c], [d] at most 0x7f, [tag_to_string (make_tag a b c d)] is the
    four-character string [a b c d]. *)
Theorem tag_round_trip (a b c d : Z) :
  0 < a ≤ 0xff → 0 < b ≤ 0x7f → 0 < c ≤ 0x7f → 0 < d ≤ 0x7f →
  tag_to_string (make_tag (C.to_char a) (C.to_char b) (C.to_char c) (C.to_char d))
  = four_chars a b c d.
Proof.
  intros Ha Hb Hc Hd.
  rewrite (to_char_small b), (to_char_small c), (to_char_small d) by lia.
  rewrite make_tag_bytes by (try apply to_char_range; lia).
  assert (0 ≤ C.wrap 8 (C.to_char a) < 256) as Hwrap
    by (unfold C.wrap; change (2 ^ 8) with 256; apply Z.mod_pos_bound; lia).
  rewrite tag_to_string_bytes by lia.
  rewrite (to_char_small b), (to_char_small c), (to_char_small d) by lia.
  rewrite cstring_four; [|try lia..].
  - rewrite <- (four_chars_to_char a b c d).
    rewrite (to_char_small b), (to_char_small c), (to_char_small d) by lia.
    by rewrite to_char_wrap, to_char_idem.
  - rewrite to_char_wrap, to_char_idem. by apply to_char_nonzero.
Qed.

Lemma tag_round_trip_witness :
  tag_to_string (make_tag (C.to_char 0xe9) (C.to_char 0x70) (C.to_char 0x73) (C.to_char 0x7a))
  = four_chars 0xe9 0x70 0x73 0x7a.
Proof. apply (tag_round_trip 0xe9 0x70 0x73 0x7a); lia. Defined.

Lemma request_dictionary_as_specified (axes : list Axis) (variation : gmap Z float)
    (omit : bool) (bump : Z) (w : float) :
  request_as_specified axes variation omit bump w
    (request_dictionary axes (resolved_dictionary axes variation) omit bump w).
Proof.
  split.
  - apply request_dictionary_dom.
  - intros tag value. rewrite request_dictionary_lookup.
    destruct (first_axis tag axes) as [a|]; [|done].
    destruct ((tag =? kOpszTag) && omit); [done|].
    intros [= <-]. by exists a.
Qed.

Lemma resolve_axes_result (axes : list Axis) (variation : gmap Z float) :
  result (resolve_axes axes variation) = Done (resolved_dictionary axes variation).
Proof. by rewrite resolve_axes_unfold. Qed.

Lemma build_request_result (axes : list Axis) (variation : gmap Z float)
    (omit : bool) (bump : Z) (w : float) :
  result (build_request axes (resolved_dictionary axes variation) omit bump w)
  = Done (request_dictionary axes (resolved_dictionary axes variation) omit bump w).
Proof. by rewrite build_request_unfold by apply resolved_dictionary_complete. Qed.

(** C2: a test case performs its 54 trials, and in each the keys of
    [requestedVariation] are the axis identifiers of the original font,
    without opsz when [omit_opsz] is set; an entry holds the resolved
    baseline of its axis, with the perturbation added when the identifier is
    [axis_to_bump], and the trial's weight when the identifier is wght,
    whatever the bump.  The same holds of the request loop and of the body
    of a trial for every triple of parameters, also one that bumps wght. *)
Theorem requested_variation_contents (P : CoreText) (f : Font P) (label : string) :
  (∃ ts, result (run_case P {| font := Some f; name := label |}) = Done ts
     ∧ parameters <$> ts = nth_parameters <$> seq 0 54
     ∧ Forall (λ t,
         request_as_specified (CTFontCopyVariationAxes P f) (CTFontCopyVariation P f)
           (omit_opsz t) (axis_to_bump t) (wghtValue t) (requestedVariation t)) ts)
  ∧ ∃ resolved,
      result (resolve_axes (CTFontCopyVariationAxes P f) (CTFontCopyVariation P f))
      = Done resolved
      ∧ ∀ omit bump w,
          ∃ requested,
            result (build_request (CTFontCopyVariationAxes P f) resolved omit bump w)
            = Done requested
            ∧ request_as_specified (CTFontCopyVariationAxes P f) (CTFontCopyVariation P f)
                omit bump w requested
            ∧ ∃ tr t,
                trial P {| font := Some f; name := label |} (Some f)
                  (CTFontCopyFontDescriptor P f) (CTFontCopyVariationAxes P f)
                  resolved omit bump w
                = mkM tr (Done t)
                ∧ parameters t = (omit, bump, w)
                ∧ requestedVariation t = requested.
Proof.
  split.
  - rewrite run_case_unfold. eexists. split; [reflexivity|]. split; [reflexivity|].
    apply sweep_Forall. intros omit bump w _. apply Forall_singleton.
    apply request_dictionary_as_specified.
  - eexists. split; [apply resolve_axes_result|].
    intros omit bump w. eexists. split; [apply build_request_result|].
    split; [apply request_dictionary_as_specified|].
    rewrite trial_unfold. by eexists _, _.
Qed.

(** C3: a test case goes through exactly 54 trials; trial [i] has
    [omit_opsz] set from the 28th on, bumps the axis number [(i / 9) mod 3]
    of none, opsz, wdth, and requests the weight [100 * (i mod 9 + 1)]: the
    weight is the innermost choice and [omit_opsz] the outermost. *)
Theorem sweep_has_54_trials_in_order (P : CoreText) (f : Font P) (label : string) :
  ∃ ts, result (run_case P {| font := Some f; name := label |}) = Done ts
    ∧ length ts = 54%nat
    ∧ parameters <$> ts = nth_parameters <$> seq 0 54.
Proof.
  rewrite run_case_unfold. eexists. split; [reflexivity|]. split; reflexivity.
Qed.

(** C9: the first loop leaves an entry in [originalResolvedVariation] for
    the identifier of every axis of the list it ran over, so the request
    loop over the same list finds each one; no test case and no run of
    [main] ends in a failed assertion. *)
Theorem assertion_never_fires (P : CoreText) :
  (∀ axes variation,
     ∃ resolved, result (resolve_axes axes variation) = Done resolved
       ∧ (∀ a, a ∈ axes → is_Some (resolved !! axis_identifier a))
       ∧ ∀ omit bump w, ending (build_request axes resolved omit bump w) = None)
  ∧ (∀ f label, ending (run_case P {| font := Some f; name := label |}) = None)
  ∧ (∀ testCase, ending (run_case P testCase) ≠ Some AssertionFailed)
  ∧ (∀ O, ending (main P O) ≠ Some AssertionFailed).
Proof.
  split; [|split; [|split]].
  - intros axes variation. exists (resolved_dictionary axes variation).
    rewrite resolve_axes_unfold. split; [reflexivity|]. split.
    + intros a. apply resolved_dictionary_complete.
    + intros omit bump w.
      by rewrite build_request_unfold by apply resolved_dictionary_complete.
  - intros f label. by rewrite run_case_unfold.
  - intros [[f|] label].
    + by rewrite run_case_unfold.
    + by rewrite run_case_null.
  - intros O. destruct (fopen O SFNS "rb") as [fileHandle|] eqn:Hopen.
    + by rewrite (main_opened_file _ _ _ Hopen).
    + by rewrite (main_missing_file _ _ Hopen).
Qed.

(** C4: each of the three loops that print the axes of a font shows, for
    every axis, the entry of the font's variation dictionary under the
    axis identifier when there is one and the axis default otherwise; the
    first loop stores the same value; a trial applies the rule to the axes
    of the result font and again to those of the original font. *)
Theorem introspection_resolves_each_axis (P : CoreText) :
  (∀ axes variation,
     print_axes axes variation = mkM (axis_event variation <$> axes) (Done tt))
  ∧ (∀ axes variation,
       ∃ resolved,
         resolve_axes axes variation = mkM (axis_event variation <$> axes) (Done resolved)
         ∧ ∀ tag, resolved !! tag = resolved_value variation <$> first_axis tag axes)
  ∧ (∀ f label omit bump w,
       ∃ t rf before after,
         trial P {| font := Some f; name := label |} (Some f) (CTFontCopyFontDescriptor P f)
           (CTFontCopyVariationAxes P f)
           (resolved_dictionary (CTFontCopyVariationAxes P f) (CTFontCopyVariation P f))
           omit bump w
         = mkM (before
                ++ [Printf "Result  : " []]
                ++ (axis_event (CTFontCopyVariation P rf) <$> CTFontCopyVariationAxes P rf)
                ++ [Printf "\n" []; Printf "Original: " []]
                ++ (axis_event (CTFontCopyVariation P f) <$> CTFontCopyVariationAxes P f)
                ++ after)
               (Done t)
         ∧ resultFont t = Some rf).
Proof.
  split; [|split].
  - apply print_axes_unfold.
  - intros axes variation. exists (resolved_dictionary axes variation).
    split; [apply resolve_axes_unfold | apply resolved_dictionary_lookup].
  - intros f label omit bump w. rewrite trial_unfold.
    set (t := trial_record P f omit bump w).
    exists t, (derived_font P f (requestedVariation t)).
    exists (Printf "Request : " []
            :: concat (request_events
                         (resolved_dictionary (CTFontCopyVariationAxes P f)
                            (CTFontCopyVariation P f))
                         omit bump w <$> CTFontCopyVariationAxes P f)
            ++ [Printf "\n" []; Fflush]).
    exists (Printf "\n" [] :: report t).
    split; [|reflexivity].
    f_equal. unfold trial_trace. cbn [app]. f_equal.
    rewrite <- !app_assoc. reflexivity.
Qed.

(** The constant added by the request loop is 1/10000 rounded to binary32
    (24 bits of precision), not to binary64. *)
Example FLT_0_0001_is_binary32 :
  FLT_0_0001 = SF2Prim (SFdiv 24 128 (S754_finite false 1 0) (S754_finite false 10000 0))
  ∧ (FLT_0_0001 =? 0.0001)%float = false.
Proof. split; reflexivity. Qed.

(** C5, as stated, fails: the request loop adds the [float] constant
    [0.0001f], about 0.0000999999975, not 0.0001.  On a font whose wdth
    baseline is 100, trial 18 (no omission, wdth bumped, weight 100) requests
    [100 + 0.0001f] for wdth, which differs from [100 + 0.0001]. *)
Lemma bump_is_not_exactly_0_0001 :
  parameters <$> trials (run_case Sample.consistent Sample.system_font) !! 18%nat
    = Some (false, kWdthTag, 100%float)
  ∧ resolved_value (Sample.variation (CTFontCreateUIFontForLanguage Sample.consistent 24))
      <$> first_axis kWdthTag Sample.axes = Some 100%float
  ∧ (trials (run_case Sample.consistent Sample.system_font) !! 18%nat
       ≫= λ t, requestedVariation t !! kWdthTag) = Some (100 + FLT_0_0001)%float
  ∧ ((100 + FLT_0_0001) =? (100 + 0.0001))%float = false
  ∧ (100 + FLT_0_0001)%float ≠ (100 + 0.0001)%float.
Proof.
  split; [|split; [|split; [|split]]]; [vm_compute; reflexivity ..|].
  vm_compute. discriminate.
Qed.

(** C5, amended: in every trial whose [axis_to_bump] is a key of
    [requestedVariation], the value requested for that axis is its resolved
    baseline plus the single-precision constant [0.0001f] (0x1.a36e2ep-14)
    widened to [double], the sum rounded to [double].  For every triple of
    parameters the request loop, and the body of a trial with it, requests
    for the bumped identifier: nothing when no axis carries it or when it is
    opsz and opsz is omitted; the trial's weight when it is wght; and
    otherwise the baseline plus that constant. *)
Theorem bump_adds_the_float_constant (P : CoreText) (f : Font P) (label : string) :
  (∃ ts, result (run_case P {| font := Some f; name := label |}) = Done ts
     ∧ parameters <$> ts = nth_parameters <$> seq 0 54
     ∧ Forall (λ t,
         ∀ value, requestedVariation t !! axis_to_bump t = Some value →
           ∃ a, first_axis (axis_to_bump t) (CTFontCopyVariationAxes P f) = Some a
             ∧ value = (resolved_value (CTFontCopyVariation P f) a + FLT_0_0001)%float) ts)
  ∧ ∃ resolved,
      result (resolve_axes (CTFontCopyVariationAxes P f) (CTFontCopyVariation P f))
      = Done resolved
      ∧ ∀ omit bump w,
          ∃ requested,
            result (build_request (CTFontCopyVariationAxes P f) resolved omit bump w)
            = Done requested
            ∧ requested !! bump
              = match first_axis bump (CTFontCopyVariationAxes P f) with
                | Some a =>
                    if (bump =? kOpszTag) && omit then None
                    else if bump =? kWghtTag then Some w
                    else Some (resolved_value (CTFontCopyVariation P f) a + FLT_0_0001)%float
                | None => None
                end
            ∧ ∃ tr t,
                trial P {| font := Some f; name := label |} (Some f)
                  (CTFontCopyFontDescriptor P f) (CTFontCopyVariationAxes P f)
                  resolved omit bump w
                = mkM tr (Done t)
                ∧ axis_to_bump t = bump
                ∧ requestedVariation t = requested.
Proof.
  assert (∀ omit bump w,
       request_dictionary (CTFontCopyVariationAxes P f)
         (resolved_dictionary (CTFontCopyVariationAxes P f) (CTFontCopyVariation P f))
         omit bump w !! bump
       = match first_axis bump (CTFontCopyVariationAxes P f) with
         | Some a =>
             if (bump =? kOpszTag) && omit then None
             else if bump =? kWghtTag then Some w
             else Some (resolved_value (CTFontCopyVariation P f) a + FLT_0_0001)%float
         | None => None
         end) as Hbump.
  { intros omit bump w. rewrite request_dictionary_lookup.
    destruct (first_axis bump (CTFontCopyVariationAxes P f)) as [a|]; [|reflexivity].
    destruct ((bump =? kOpszTag) && omit); [reflexivity|].
    unfold requested_value. rewrite Z.eqb_refl. by destruct (bump =? kWghtTag). }
  split.
  - rewrite run_case_unfold. eexists. split; [reflexivity|]. split; [reflexivity|].
    apply sweep_Forall. intros omit bump w Hin. apply Forall_singleton.
    cbn [axis_to_bump trial_record requestedVariation]. intros value. rewrite Hbump.
    destruct (first_axis bump (CTFontCopyVariationAxes P f)) as [a|]; [|done].
    destruct ((bump =? kOpszTag) && omit); [done|].
    assert ((bump =? kWghtTag) = false) as ->.
    { repeat (apply elem_of_cons in Hin as [->|Hin]); [reflexivity..|].
      by apply elem_of_nil in Hin. }
    intros [= <-]. by exists a.
  - eexists. split; [apply resolve_axes_result|].
    intros omit bump w. eexists. split; [apply build_request_result|].
    split; [apply Hbump|].
    rewrite trial_unfold. by eexists _, _.
Qed.

(** C6: a test case performs its 54 trials, and in each the result font is
    instantiated, at the size of the original font, from a copy of the
    original font's descriptor that carries the requested variation as its
    variation attribute.  That is what the code that derives the font does
    for every font, descriptor and attributes, and what the body of a trial
    does for every triple of parameters.  Whatever the platform's font-level
    copy and descriptor-from-attributes calls do, the derivation, a trial and
    a test case run the same, for the program does not call them. *)
Theorem result_font_by_descriptor_copy (P : CoreText) (f : Font P) (label : string) :
  (∀ g descriptor attributes,
     derive_font P (Some g) descriptor attributes
     = mkM [Fflush]
         (Done (Some (CTFontCreateWithFontDescriptor P
                        (CTFontDescriptorCreateCopyWithAttributes P descriptor attributes)
                        (CTFontGetSize P g)))))
  ∧ (∃ ts, result (run_case P {| font := Some f; name := label |}) = Done ts
       ∧ parameters <$> ts = nth_parameters <$> seq 0 54
       ∧ Forall (λ t,
           resultFont t
           = Some (CTFontCreateWithFontDescriptor P
                     (CTFontDescriptorCreateCopyWithAttributes P (CTFontCopyFontDescriptor P f)
                        {[ kCTFontVariationAttribute := requestedVariation t ]})
                     (CTFontGetSize P f))) ts)
  ∧ (∃ resolved,
       result (resolve_axes (CTFontCopyVariationAxes P f) (CTFontCopyVariation P f))
       = Done resolved
       ∧ ∀ omit bump w,
           ∃ requested tr t,
             result (build_request (CTFontCopyVariationAxes P f) resolved omit bump w)
             = Done requested
             ∧ trial P {| font := Some f; name := label |} (Some f)
                 (CTFontCopyFontDescriptor P f) (CTFontCopyVariationAxes P f)
                 resolved omit bump w
               = mkM tr (Done t)
             ∧ parameters t = (omit, bump, w)
             ∧ resultFont t
               = Some (CTFontCreateWithFontDescriptor P
                         (CTFontDescriptorCreateCopyWithAttributes P
                            (CTFontCopyFontDescriptor P f)
                            {[ kCTFontVariationAttribute := requested ]})
                         (CTFontGetSize P f)))
  ∧ (∀ describe copy,
       (∀ g descriptor attributes,
          derive_font (with_font_level_copy P describe copy) (Some g) descriptor attributes
          = derive_font P (Some g) descriptor attributes)
       ∧ run_case (with_font_level_copy P describe copy) {| font := Some f; name := label |}
         = run_case P {| font := Some f; name := label |}).
Proof.
  split; [|split; [|split]].
  - reflexivity.
  - rewrite run_case_unfold. eexists. split; [reflexivity|]. split; [reflexivity|].
    apply sweep_Forall. intros omit bump w _. by apply Forall_singleton.
  - eexists. split; [apply resolve_axes_result|].
    intros omit bump w. eexists _, _, _. split; [apply build_request_result|].
    rewrite trial_unfold. by repeat split.
  - intros describe copy. split; [reflexivity|].
    etrans; [exact (run_case_unfold (with_font_level_copy P describe copy) f label)|].
    symmetry. exact (run_case_unfold P f label).
Qed.

(** C7: a file that does not open is the one failure the constructor
    handles: it prints the message and returns a null handle.  When the
    file opens nothing is checked: whatever [fstat] and [mmap] return goes
    to the platform, nothing is printed and the handle is not null.  When the
    font file does not open, [main] puts the null handle in the array, runs
    the first test case, and faults on the second at its first platform
    call, before printing anything for it. *)
Theorem only_open_failure_is_handled (P : CoreText) (O : Posix) :
  (∀ file size,
     fopen O file "rb" = None →
     make_ctfont_from_file P O file size
     = mkM [Printf "Could not open: %s\n" [ArgString file]] (Done None))
  ∧ (∀ file size fileHandle,
       fopen O file "rb" = Some fileHandle →
       make_ctfont_from_file P O file size
       = mkM [] (Done (Some (CTFontCreateWithFontDescriptor P
           (CTFontManagerCreateFontDescriptorFromData P
              (CFDataCreateWithBytesNoCopy P
                 (mmap O (C.to_size_t (fstat O (fileno O fileHandle)).2) (fileno O fileHandle))
                 (C.to_long (C.to_size_t (fstat O (fileno O fileHandle)).2))))
           size))))
  ∧ (fopen O SFNS "rb" = None →
     main P O
     = mkM (Printf "Could not open: %s\n" [ArgString SFNS] :: trace (run_case P (first_case P)))
           (Fault NullDereference)).
Proof.
  split; [|split].
  - intros file size. apply make_ctfont_from_file_missing.
  - intros file size fileHandle. apply make_ctfont_from_file_opened.
  - apply main_missing_file.
Qed.

Lemma only_open_failure_is_handled_witness :
  main Sample.consistent Sample.no_file
  = mkM (Printf "Could not open: %s\n" [ArgString SFNS]
         :: trace (run_case Sample.consistent (first_case Sample.consistent)))
        (Fault NullDereference)
  ∧ ∃ font,
      make_ctfont_from_file Sample.consistent Sample.unreadable_file SFNS 24
      = mkM [] (Done (Some font)).
Proof.
  split.
  - apply (only_open_failure_is_handled Sample.consistent Sample.no_file). reflexivity.
  - eexists.
    apply (proj1 (proj2 (only_open_failure_is_handled Sample.consistent Sample.unreadable_file))
             SFNS 24%float tt).
    reflexivity.
Defined.

(** ** The equality predicates do not steer the program *)

Lemma redact_report {F} (t : Trial F) :
  redact <$> report t
  = [Printf "CFEqual(resultVariation, originalVariation): %s\n" [];
     Printf "CFEqual(resultFont, originalFont): %s\n" [];
     Fflush;
     Printf "\n" []].
Proof. reflexivity. Qed.

Lemma redact_trial_trace (P : CoreText) (f : Font P) (t t' : Trial (Font P)) :
  request_and_result t = request_and_result t' →
  redact <$> trial_trace P f t = redact <$> trial_trace P f t'.
Proof.
  intros Hsame. destruct t, t'. unfold request_and_result, parameters in Hsame.
  cbn [omit_opsz axis_to_bump wghtValue requestedVariation resultFont resultVariation]
    in Hsame.
  injection Hsame as -> -> -> -> -> ->.
  unfold trial_trace. rewrite !fmap_app, !redact_report. reflexivity.
Qed.

Lemma run_case_with_CFEqual (P : CoreText)
    (eq_dictionary : gmap Z float → gmap Z float → bool) (eq_font : Font P → Font P → bool)
    (testCase : TestCase (Font P)) :
  ending (run_case (with_CFEqual P eq_dictionary eq_font) testCase)
  = ending (run_case P testCase)
  ∧ redact <$> trace (run_case (with_CFEqual P eq_dictionary eq_font) testCase)
    = redact <$> trace (run_case P testCase)
  ∧ request_and_result <$> trials (run_case (with_CFEqual P eq_dictionary eq_font) testCase)
    = request_and_result <$> trials (run_case P testCase).
Proof.
  destruct testCase as [[f|] label]; [|by rewrite run_case_null].
  pose proof (run_case_unfold (with_CFEqual P eq_dictionary eq_font) f label) as E'.
  pose proof (run_case_unfold P f label) as E.
  change (Font (with_CFEqual P eq_dictionary eq_font)) with (Font P) in E'.
  rewrite E', E. unfold ending, trials. cbn [trace result].
  split; [reflexivity|]. split.
  - rewrite !fmap_app, !fmap_sweep. f_equal.
    apply sweep_ext. intros omit bump w.
    apply (redact_trial_trace P f). reflexivity.
  - rewrite !fmap_sweep. reflexivity.
Qed.

Lemma main_with_CFEqual (P : CoreText)
    (eq_dictionary : gmap Z float → gmap Z float → bool) (eq_font : Font P → Font P → bool)
    (O : Posix) :
  ending (main (with_CFEqual P eq_dictionary eq_font) O) = ending (main P O)
  ∧ redact <$> trace (main (with_CFEqual P eq_dictionary eq_font) O)
    = redact <$> trace (main P O).
Proof.
  destruct (fopen O SFNS "rb") as [fileHandle|] eqn:Hopen.
  - rewrite (main_opened_file (with_CFEqual P eq_dictionary eq_font) O fileHandle Hopen).
    rewrite (main_opened_file P O fileHandle Hopen).
    unfold ending. cbn [trace result]. split; [reflexivity|]. rewrite !fmap_flat_map.
    apply flat_map_ext. intros c.
    apply (run_case_with_CFEqual P eq_dictionary eq_font {| font := Some c.1; name := c.2 |}).
  - rewrite (main_missing_file (with_CFEqual P eq_dictionary eq_font) O Hopen).
    rewrite (main_missing_file P O Hopen).
    unfold ending. cbn [trace result]. split; [reflexivity|]. rewrite !fmap_cons.
    destruct (run_case_with_CFEqual P eq_dictionary eq_font (first_case P))
      as (_ & Htrace & _).
    change (first_case (with_CFEqual P eq_dictionary eq_font)) with (first_case P).
    by rewrite Htrace.
Qed.

(** C8: every trial ends by printing the two booleans, the equality of the
    variation dictionaries and the equality of the font handles, as the
    platform reported them.  Nothing else depends on them: under any other
    pair of equality predicates a test case and [main] end the same way,
    print the same lines apart from the two reported words, and request and
    obtain the same fonts. *)
Theorem booleans_are_only_printed (P : CoreText) :
  (∀ f label omit bump w,
     ∃ t rf before,
       trial P {| font := Some f; name := label |} (Some f) (CTFontCopyFontDescriptor P f)
         (CTFontCopyVariationAxes P f)
         (resolved_dictionary (CTFontCopyVariationAxes P f) (CTFontCopyVariation P f))
         omit bump w
       = mkM (before
              ++ [Printf "CFEqual(resultVariation, originalVariation): %s\n"
                    [ArgString (bool_text (variationEqual t))];
                  Printf "CFEqual(resultFont, originalFont): %s\n"
                    [ArgString (bool_text (fontEqual t))];
                  Fflush;
                  Printf "\n" []])
             (Done t)
       ∧ resultFont t = Some rf
       ∧ variationEqual t
         = CFEqual_Dictionary P (CTFontCopyVariation P rf) (CTFontCopyVariation P f)
       ∧ fontEqual t = CFEqual_Font P rf f)
  ∧ (∀ eq_dictionary eq_font testCase,
       ending (run_case (with_CFEqual P eq_dictionary eq_font) testCase)
       = ending (run_case P testCase)
       ∧ redact <$> trace (run_case (with_CFEqual P eq_dictionary eq_font) testCase)
         = redact <$> trace (run_case P testCase)
       ∧ request_and_result
           <$> trials (run_case (with_CFEqual P eq_dictionary eq_font) testCase)
         = request_and_result <$> trials (run_case P testCase))
  ∧ (∀ eq_dictionary eq_font O,
       ending (main (with_CFEqual P eq_dictionary eq_font) O) = ending (main P O)
       ∧ redact <$> trace (main (with_CFEqual P eq_dictionary eq_font) O)
         = redact <$> trace (main P O)).
Proof.
  split; [|split].
  - intros f label omit bump w. rewrite trial_unfold.
    set (t := trial_record P f omit bump w).
    exists t, (derived_font P f (requestedVariation t)).
    eexists. split; [|by repeat split].
    f_equal. unfold trial_trace. rewrite !app_assoc. reflexivity.
  - apply run_case_with_CFEqual.
  - apply main_with_CFEqual.
Qed.

(** * Further properties of the code *)

(** ** Tags *)

(** X1: whatever the tag, [tag_to_string] returns at most four characters:
    the fifth byte of its buffer is always the terminator. *)
Theorem tag_to_string_at_most_four (tag : Z) :
  (String.length (tag_to_string tag) ≤ 4)%nat.
Proof.
  unfold tag_to_string. cbv zeta. cbn [C.cstring]. change (0 =? 0) with true.
  repeat match goal with |- context [if ?b then _ else _] => destruct b end;
    cbn; lia.
Qed.

(** X2: the string stops at the first zero byte of the tag: its length is
    the number of nonzero bytes at the most significant end. *)
Theorem tag_to_string_stops_at_zero_byte (a b c d : Z) :
  0 ≤ a < 256 → 0 ≤ b < 256 → 0 ≤ c < 256 → 0 ≤ d < 256 →
  String.length (tag_to_string (tag_of_bytes a b c d))
  = if a =? 0 then 0%nat
    else if b =? 0 then 1%nat
    else if c =? 0 then 2%nat
    else if d =? 0 then 3%nat
    else 4%nat.
Proof.
  intros Ha Hb Hc Hd. rewrite tag_to_string_bytes by assumption.
  assert (∀ x, 0 ≤ x < 256 → (C.to_char x =? 0) = (x =? 0)) as Hzero.
  { intros x Hx. destruct (Z.eqb_spec x 0) as [->|Hne]; [reflexivity|].
    apply Z.eqb_neq, to_char_nonzero. lia. }
  cbn [C.cstring]. rewrite !Hzero by assumption.
  destruct (a =? 0); [reflexivity|]. destruct (b =? 0); [reflexivity|].
  destruct (c =? 0); [reflexivity|]. destruct (d =? 0); reflexivity.
Qed.

Lemma tag_to_string_stops_at_zero_byte_witness :
  String.length (tag_to_string (tag_of_bytes 0x6f 0x70 0 0x7a)) = 2%nat.
Proof. apply (tag_to_string_stops_at_zero_byte 0x6f 0x70 0 0x7a); lia. Defined.

(** X3: on characters of which the last three are not negative, [make_tag]
    is injective: two tags are equal only if they are made of the same four
    characters. *)
Theorem make_tag_injective (a b c d a' b' c' d' : Z) :
  -128 ≤ a ≤ 127 → 0 ≤ b ≤ 127 → 0 ≤ c ≤ 127 → 0 ≤ d ≤ 127 →
  -128 ≤ a' ≤ 127 → 0 ≤ b' ≤ 127 → 0 ≤ c' ≤ 127 → 0 ≤ d' ≤ 127 →
  make_tag a b c d = make_tag a' b' c' d' →
  a = a' ∧ b = b' ∧ c = c' ∧ d = d'.
Proof.
  intros Ha Hb Hc Hd Ha' Hb' Hc' Hd'. rewrite !make_tag_bytes by assumption.
  unfold tag_of_bytes, C.wrap. change (2 ^ 24) with 16777216.
  change (2 ^ 16) with 65536. change (2 ^ 8) with 256.
  intros Heq.
  assert (0 ≤ a mod 256 < 256) as HA by (apply Z.mod_pos_bound; lia).
  assert (0 ≤ a' mod 256 < 256) as HA' by (apply Z.mod_pos_bound; lia).
  assert (a mod 256 = a' mod 256 ∧ b = b' ∧ c = c' ∧ d = d') as (Hmod & -> & -> & ->).
  { generalize dependent (a mod 256). generalize dependent (a' mod 256).
    intros A' HA' A Heq HA.
    assert (d = d') as -> by lia. assert (c = c') as -> by lia.
    assert (b = b') as -> by lia. repeat split; lia. }
  repeat split. revert Hmod. Z.div_mod_to_equations. lia.
Qed.

Lemma make_tag_injective_witness :
  make_tag (-23) 0x70 0x73 0x7a = make_tag (-23) 0x70 0x73 0x7a
  ∧ (-23 = -23 ∧ 0x70 = 0x70 ∧ 0x73 = 0x73 ∧ 0x7a = 0x7a).
Proof.
  split; [reflexivity|].
  apply (make_tag_injective (-23) 0x70 0x73 0x7a (-23) 0x70 0x73 0x7a);
    [lia..|reflexivity].
Defined.

(** ** The request loop *)

Lemma build_request_for_list (axes : list Axis) (resolved : gmap Z float)
    (omit : bool) (bump : Z) (w : float) :
  build_request axes resolved omit bump w
  = for_list axes (request_loop_step resolved omit bump w) ∅.
Proof. exact (for_loop_array0 (request_loop_step resolved omit bump w) axes ∅). Qed.

Lemma request_loop_step_present (resolved : gmap Z float) (omit : bool) (bump : Z) (w : float)
    (a : Axis) (d : gmap Z float) :
  is_Some (resolved !! axis_identifier a) →
  ∃ t d', request_loop_step resolved omit bump w a d = mkM t (Done d').
Proof.
  intros [current Hcur]. unfold request_loop_step, CFNumberGetValue_long. cbv zeta.
  rewrite Hcur. destruct ((axis_identifier a =? kOpszTag) && omit); by eexists _, _.
Qed.

Lemma request_loop_step_missing (resolved : gmap Z float) (omit : bool) (bump : Z) (w : float)
    (a : Axis) (d : gmap Z float) :
  resolved !! axis_identifier a = None →
  request_loop_step resolved omit bump w a d = raise AssertionFailed.
Proof. intros Hcur. unfold request_loop_step. cbv zeta. by rewrite Hcur. Qed.

(** X5: the request loop ends in a failed assertion exactly when some axis of
    the list has no entry in the dictionary of baselines it is given, and
    otherwise runs to its end; it never reads outside the array. *)
Theorem request_loop_asserts_on_missing_baseline (axes : list Axis) (resolved : gmap Z float)
    (omit : bool) (bump : Z) (w : float) :
  ending (build_request axes resolved omit bump w)
  = if forallb (λ a, bool_decide (is_Some (resolved !! axis_identifier a))) axes
    then None else Some AssertionFailed.
Proof.
  rewrite build_request_for_list. generalize (∅ : gmap Z float).
  induction axes as [|a axes IH]; intros d; [reflexivity|].
  cbn [for_list forallb]. case_bool_decide as Hpresent.
  - destruct (request_loop_step_present resolved omit bump w a d Hpresent) as (t & d' & ->).
    rewrite bind_Done. cbn [andb]. rewrite <- (IH d'). reflexivity.
  - rewrite request_loop_step_missing; [reflexivity|].
    by apply eq_None_not_Some.
Qed.

Lemma request_dictionary_bump_lost (axes : list Axis) (resolved : gmap Z float) (w : float) :
  0 ∉ axis_identifier <$> axes →
  request_dictionary axes resolved true kOpszTag w = request_dictionary axes resolved true 0 w.
Proof.
  intros Hzero. apply map_eq. intros t. rewrite !request_dictionary_lookup_any.
  case_decide as Hin; [|reflexivity].
  destruct (t =? kOpszTag) eqn:Hopsz; [reflexivity|]. cbn [andb].
  unfold requested_value. rewrite Hopsz.
  assert ((t =? 0) = false) as ->; [|reflexivity].
  apply Z.eqb_neq. intros ->. by apply Hzero.
Qed.

(** X6: when opsz is left out of the request, bumping opsz changes nothing:
    on a font none of whose axes has the identifier 0, the nine trials that
    omit opsz and bump it (trials 36 to 44) request the same dictionaries,
    and obtain the same fonts, as the nine that omit opsz and bump nothing
    (trials 27 to 35). *)
Theorem opsz_bump_is_lost_when_omitted (P : CoreText) (f : Font P) (label : string) :
  0 ∉ axis_identifier <$> CTFontCopyVariationAxes P f →
  (parameters <$> take 9 (drop 27 (trials (run_case P {| font := Some f; name := label |})))
   = nth_parameters <$> seq 27 9)
  ∧ (parameters <$> take 9 (drop 36 (trials (run_case P {| font := Some f; name := label |})))
     = nth_parameters <$> seq 36 9)
  ∧ (requestedVariation
       <$> take 9 (drop 36 (trials (run_case P {| font := Some f; name := label |})))
     = requestedVariation
       <$> take 9 (drop 27 (trials (run_case P {| font := Some f; name := label |}))))
  ∧ (resultFont
       <$> take 9 (drop 36 (trials (run_case P {| font := Some f; name := label |})))
     = resultFont
       <$> take 9 (drop 27 (trials (run_case P {| font := Some f; name := label |})))).
Proof.
  intros Hzero. rewrite run_case_unfold. unfold trials. cbn [result].
  split; [reflexivity|]. split; [reflexivity|].
  unfold sweep.
  cbn [flat_map app drop take fmap list_fmap trial_record requestedVariation resultFont].
  rewrite !(request_dictionary_bump_lost _ _ _ Hzero). split; reflexivity.
Qed.

Lemma opsz_bump_is_lost_when_omitted_witness :
  requestedVariation
    <$> take 9 (drop 36 (trials (run_case Sample.consistent Sample.system_font)))
  = requestedVariation
    <$> take 9 (drop 27 (trials (run_case Sample.consistent Sample.system_font))).
Proof.
  refine (proj1 (proj2 (proj2
    (opsz_bump_is_lost_when_omitted Sample.consistent
       (CTFontCreateUIFontForLanguage Sample.consistent 24) "SystemUI size 24" _)))).
  apply (bool_decide_unpack _). vm_compute. exact I.
Defined.

(** ** [main] and the font file *)

Lemma run_case_parameters (P : CoreText) (f : Font P) (label : string) :
  parameters <$> trials (run_case P {| font := Some f; name := label |})
  = nth_parameters <$> seq 0 54.
Proof. by rewrite run_case_unfold. Qed.

Lemma filter_flat_map {A B} (p : B → bool) (h : A → list B) (l : list A) :
  List.filter p (flat_map h l) = flat_map (λ x, List.filter p (h x)) l.
Proof. induction l as [|a l IH]; [reflexivity|]. cbn. by rewrite List.filter_app, IH. Qed.

Lemma filter_sweep {B} (p : B → bool) (body : bool → Z → float → list B) :
  List.filter p (sweep body) = sweep (λ omit bump w, List.filter p (body omit bump w)).
Proof.
  unfold sweep. rewrite filter_flat_map. apply flat_map_ext. intros omit.
  rewrite filter_flat_map. apply flat_map_ext. intros bump.
  by rewrite filter_flat_map.
Qed.

Lemma filter_axis_events (format : string) (variation : gmap Z float) (axes : list Axis) :
  format ≠ "(%s: %f) " →
  List.filter (is_printf format) (axis_event variation <$> axes) = [].
Proof.
  intros Hformat. induction axes as [|a axes IH]; [reflexivity|].
  cbn [fmap list_fmap List.filter axis_event is_printf].
  rewrite bool_decide_false by congruence. exact IH.
Qed.

Lemma filter_request_events (format : string) (resolved : gmap Z float)
    (omit : bool) (bump : Z) (w : float) (axes : list Axis) :
  format ≠ "(%s: %f) " → format ≠ "#%s: %f# " →
  List.filter (is_printf format) (concat (request_events resolved omit bump w <$> axes)) = [].
Proof.
  intros Hformat Hformat'. induction axes as [|a axes IH]; [reflexivity|].
  cbn [fmap list_fmap concat]. rewrite List.filter_app, IH, app_nil_r.
  unfold request_events. destruct (resolved !! axis_identifier a); [|reflexivity].
  destruct (skipped omit a); cbn [List.filter is_printf];
    by rewrite bool_decide_false by congruence.
Qed.

Lemma filter_trial_trace (format : string) (P : CoreText) (f : Font P) (t : Trial (Font P)) :
  format ≠ "(%s: %f) " → format ≠ "#%s: %f# " →
  List.filter (is_printf format) (trial_trace P f t)
  = List.filter (is_printf format) (trial_frame t).
Proof.
  intros Hformat Hformat'. unfold trial_trace, trial_frame.
  rewrite !List.filter_app, !filter_axis_events, filter_request_events by assumption.
  cbn [app]. rewrite !app_assoc, <- !List.filter_app. reflexivity.
Qed.

Lemma filter_run_case (format : string) (P : CoreText) (f : Font P) (label : string) :
  format ≠ "(%s: %f) " → format ≠ "#%s: %f# " →
  List.filter (is_printf format) (trace (run_case P {| font := Some f; name := label |}))
  = List.filter (is_printf format)
      [Printf "--------------------------\n" []; Printf "Case: %s\n" [ArgString label];
       Printf "Original: " []; Printf "\n\n" []]
    ++ sweep (λ omit bump w,
         List.filter (is_printf format) (trial_frame (trial_record P f omit bump w))).
Proof.
  intros Hformat Hformat'. rewrite run_case_unfold. cbn [trace]. unfold case_header.
  rewrite !List.filter_app, filter_axis_events, filter_sweep by assumption.
  cbn [app]. rewrite <- List.filter_app. cbn [app]. f_equal.
  apply sweep_ext. intros omit bump w. by apply filter_trial_trace.
Qed.

Lemma sweep_nil {B} : sweep (λ _ _ _, []) = ([] : list B).
Proof. reflexivity. Qed.

Lemma filter_run_case_absent (format : string) (P : CoreText) (f : Font P) (label : string) :
  format ≠ "(%s: %f) " → format ≠ "#%s: %f# " →
  forallb (λ known, negb (bool_decide (known = format)))
    ["--------------------------\n"; "Case: %s\n"; "Original: "; "\n\n"; "Request : ";
     "\n"; "Result  : "; "CFEqual(resultVariation, originalVariation): %s\n";
     "CFEqual(resultFont, originalFont): %s\n"] = true →
  List.filter (is_printf format) (trace (run_case P {| font := Some f; name := label |})) = [].
Proof.
  intros Hformat Hformat' Hknown. rewrite filter_run_case by assumption.
  cbn [forallb] in Hknown. repeat (apply andb_prop in Hknown as [? Hknown]).
  repeat match goal with H : negb _ = true |- _ => apply negb_true_iff in H end.
  cbn [List.filter is_printf trial_frame report app].
  repeat match goal with H : bool_decide _ = false |- _ => rewrite H; clear H end.
  reflexivity.
Qed.

Lemma filter_run_case_label (P : CoreText) (f : Font P) (label : string) :
  List.filter (is_printf "Case: %s\n")
    (trace (run_case P {| font := Some f; name := label |}))
  = [Printf "Case: %s\n" [ArgString label]].
Proof. rewrite filter_run_case by discriminate. reflexivity. Qed.

(** X7: when the font file opens, [main] runs to its end without a fault
    and without the message about the file; it goes through the six test
    cases in order, 324 trials in all, each case sweeping the same 54
    parameter triples. *)
Theorem main_runs_six_sweeps (P : CoreText) (O : Posix) (fileHandle : FILE O) :
  fopen O SFNS "rb" = Some fileHandle →
  ending (main P O) = None
  ∧ length (trials (main P O)) = 324%nat
  ∧ parameters <$> trials (main P O) = concat (replicate 6 (nth_parameters <$> seq 0 54))
  ∧ count_lines "Could not open: %s\n" (trace (main P O)) = 0%nat
  ∧ List.filter (is_printf "Case: %s\n") (trace (main P O))
    = [Printf "Case: %s\n" [ArgString "SystemUI size 24"];
       Printf "Case: %s\n" [ArgString SFNS];
       Printf "Case: %s\n" [ArgString "SystemUI size 17.00"];
       Printf "Case: %s\n" [ArgString "SystemUI size 17.01"];
       Printf "Case: %s\n" [ArgString "SystemUI size 95.99"];
       Printf "Case: %s\n" [ArgString "SystemUI size 96.00"]].
Proof.
  intros Hopen. rewrite (main_opened_file P O fileHandle Hopen).
  unfold ending, trials at 1 2, count_lines. cbn [trace result].
  assert (∀ (format : string) (keep : string → list event),
            (∀ c : Font P * string,
               List.filter (is_printf format)
                 (trace (run_case P {| font := Some c.1; name := c.2 |})) = keep c.2) →
            List.filter (is_printf format)
              (flat_map (λ c, trace (run_case P {| font := Some c.1; name := c.2 |}))
                 (test_fonts P O fileHandle))
            = flat_map (λ c, keep c.2) (test_fonts P O fileHandle)) as Hfilter.
  { intros format keep Hkeep. rewrite filter_flat_map. apply flat_map_ext. intros c.
    apply Hkeep. }
  split; [reflexivity|]. split; [|split; [|split]].
  - unfold test_fonts. cbn [flat_map]. rewrite !length_app.
    rewrite <- !(length_fmap parameters), !run_case_parameters. reflexivity.
  - unfold trials at 1. cbn [result].
    rewrite fmap_flat_map. unfold test_fonts. cbn [flat_map fst snd].
    rewrite !run_case_parameters. reflexivity.
  - rewrite (Hfilter _ (λ _, [])); [reflexivity|].
    intros c. apply filter_run_case_absent; [discriminate..|by vm_compute].
  - rewrite (Hfilter _ (λ label, [Printf "Case: %s\n" [ArgString label]])); [reflexivity|].
    intros c. apply filter_run_case_label.
Qed.

Lemma main_runs_six_sweeps_witness :
  ending (main Sample.consistent Sample.unreadable_file) = None
  ∧ length (trials (main Sample.consistent Sample.unreadable_file)) = 324%nat.
Proof.
  destruct (main_runs_six_sweeps Sample.consistent Sample.unreadable_file tt eq_refl)
    as (Hend & Hlength & _).
  by split.
Defined.


Lemma to_long_to_size_t (s : Z) : - 2 ^ 63 ≤ s < 2 ^ 63 → C.to_long (C.to_size_t s) = s.
Proof.
  intros Hs. unfold C.to_long, C.to_size_t, C.swrap, C.wrap.
  change (2 ^ (64 - 1)) with 9223372036854775808.
  change (2 ^ 64) with 18446744073709551616.
  change (2 ^ 63) with 9223372036854775808 in Hs.
  Z.div_mod_to_equations. lia.
Qed.

(** X8: when the file opens, the size that [fstat] left in [st_size],
    whatever 64-bit value it is and whether or not [fstat] succeeded, is
    handed to [CFDataCreateWithBytesNoCopy] unchanged as the length, while
    [mmap] is asked for that size reduced modulo 2^64: a negative size
    becomes a huge mapping request and a negative data length. *)
Theorem file_size_is_passed_unchecked (P : CoreText) (O : Posix) (file : string) (size : float)
    (fileHandle : FILE O) :
  fopen O file "rb" = Some fileHandle →
  - 2 ^ 63 ≤ (fstat O (fileno O fileHandle)).2 < 2 ^ 63 →
  make_ctfont_from_file P O file size
  = mkM [] (Done (Some (CTFontCreateWithFontDescriptor P
      (CTFontManagerCreateFontDescriptorFromData P
         (CFDataCreateWithBytesNoCopy P
            (mmap O ((fstat O (fileno O fileHandle)).2 mod 2 ^ 64) (fileno O fileHandle))
            (fstat O (fileno O fileHandle)).2))
      size))).
Proof.
  intros Hopen Hsize. rewrite (make_ctfont_from_file_opened _ _ _ _ _ Hopen).
  by rewrite to_long_to_size_t.
Qed.

Lemma file_size_is_passed_unchecked_witness :
  make_ctfont_from_file Sample.consistent Sample.unreadable_file SFNS 24
  = mkM [] (Done (Some (CTFontCreateWithFontDescriptor Sample.consistent
      (CTFontManagerCreateFontDescriptorFromData Sample.consistent
         (CFDataCreateWithBytesNoCopy Sample.consistent
            (mmap Sample.unreadable_file
               ((fstat Sample.unreadable_file (fileno Sample.unreadable_file tt)).2 mod 2 ^ 64)
               (fileno Sample.unreadable_file tt))
            (fstat Sample.unreadable_file (fileno Sample.unreadable_file tt)).2))
      24))).
Proof.
  apply (file_size_is_passed_unchecked Sample.consistent Sample.unreadable_file SFNS 24 tt).
  - reflexivity.
  - cbn. lia.
Defined.

(** ** The output *)


Lemma well_formed_axis_events (variation : gmap Z float) (axes : list Axis) :
  Forall (λ e, well_formed e = true) (axis_event variation <$> axes).
Proof. apply Forall_fmap, Forall_forall. intros a _. reflexivity. Qed.

Lemma well_formed_request_events (resolved : gmap Z float) (omit : bool) (bump : Z) (w : float)
    (axes : list Axis) :
  Forall (λ e, well_formed e = true) (concat (request_events resolved omit bump w <$> axes)).
Proof.
  apply Forall_concat, Forall_fmap, Forall_forall. intros a _.
  unfold request_events. cbn. destruct (resolved !! axis_identifier a); [|constructor].
  destruct (skipped omit a); by repeat constructor.
Qed.

Lemma well_formed_trial_trace (P : CoreText) (f : Font P) (t : Trial (Font P)) :
  Forall (λ e, well_formed e = true) (trial_trace P f t).
Proof.
  unfold trial_trace.
  repeat (apply Forall_app; split);
    first [ apply well_formed_axis_events
          | apply well_formed_request_events
          | by repeat constructor ].
Qed.

Lemma well_formed_run_case (P : CoreText) (testCase : TestCase (Font P)) :
  Forall (λ e, well_formed e = true) (trace (run_case P testCase)).
Proof.
  destruct testCase as [[f|] label]; [|rewrite run_case_null; constructor].
  rewrite run_case_unfold. cbn [trace]. apply Forall_app. split.
  - unfold case_header.
    repeat (apply Forall_app; split);
      first [ apply well_formed_axis_events | by repeat constructor ].
  - apply sweep_Forall. intros omit bump w _. apply well_formed_trial_trace.
Qed.

(** X11: every [printf] of a run of [main] gets the arguments its format
    asks for: as many as the format has conversions, a string for each [%s]
    and a [double] for each [%f]. *)
Theorem printf_arguments_match_formats (P : CoreText) (O : Posix) :
  Forall (λ e, well_formed e = true) (trace (main P O)).
Proof.
  destruct (fopen O SFNS "rb") as [fileHandle|] eqn:Hopen.
  - rewrite (main_opened_file P O fileHandle Hopen). cbn [trace].
    apply Forall_flat_map, Forall_forall. intros c _. apply well_formed_run_case.
  - rewrite (main_missing_file P O Hopen). cbn [trace].
    constructor; [reflexivity|apply well_formed_run_case].
Qed.

Example well_formed_is_not_vacuous :
  conversions "(%s: %f) " = ["s"; "f"]%char
  ∧ well_formed (Printf "Case: %s\n" []) = false
  ∧ well_formed (Printf "(%s: %f) " [ArgDouble 1; ArgString "opsz"]) = false.
Proof. repeat split; reflexivity. Qed.

(** X12: an axis whose identifier already occurred in the list is printed
    but changes neither dictionary: the baselines and the request built from
    the list with such an axis appended are those built from the list
    without it. *)
Theorem repeated_identifier_changes_nothing (axes : list Axis) (a : Axis)
    (variation : gmap Z float) (omit : bool) (bump : Z) (w : float) :
  axis_identifier a ∈ axis_identifier <$> axes →
  result (resolve_axes (axes ++ [a]) variation) = result (resolve_axes axes variation)
  ∧ result (build_request (axes ++ [a]) (resolved_dictionary (axes ++ [a]) variation)
              omit bump w)
    = result (build_request axes (resolved_dictionary axes variation) omit bump w).
Proof.
  intros Hrepeated.
  assert (∀ t, first_axis t (axes ++ [a]) = first_axis t axes) as Hfirst.
  { intros t. unfold first_axis. clear -Hrepeated.
    assert (axis_identifier a = t → t ∈ axis_identifier <$> axes) as Hin by by intros <-.
    clear Hrepeated. induction axes as [|x axes IH]; cbn [app find].
    - destruct (axis_identifier a =? t) eqn:Heq; [|reflexivity].
      apply Z.eqb_eq, Hin, elem_of_nil in Heq. done.
    - destruct (axis_identifier x =? t) eqn:Hx; [reflexivity|]. apply IH.
      intros Heq. apply Hin in Heq. rewrite fmap_cons in Heq.
      apply elem_of_cons in Heq as [->|Heq]; [|exact Heq].
      by rewrite Z.eqb_refl in Hx. }
  assert (resolved_dictionary (axes ++ [a]) variation = resolved_dictionary axes variation)
    as Hresolved.
  { apply map_eq. intros t. by rewrite !resolved_dictionary_lookup, Hfirst. }
  rewrite !resolve_axes_unfold. cbn [result]. split; [by rewrite Hresolved|].
  rewrite !build_request_unfold by apply resolved_dictionary_complete. cbn [result].
  f_equal. apply map_eq. intros t. by rewrite !request_dictionary_lookup, Hfirst.
Qed.

Lemma repeated_identifier_changes_nothing_witness :
  result (resolve_axes
            (Sample.axes ++ [ {| axis_identifier := kWdthTag; axis_default := 50 |} ]) ∅)
  = result (resolve_axes Sample.axes ∅).
Proof.
  refine (proj1 (repeated_identifier_changes_nothing Sample.axes
                   {| axis_identifier := kWdthTag; axis_default := 50 |} ∅ false 0 100 _)).
  apply (bool_decide_unpack _). vm_compute. exact I.
Defined.

(** X13: whatever is omitted or bumped, the request line of a trial shows
    every axis of the original font once and in the order of the axis list:
    the event at position [i] carries the tag of axis [i]; it is printed
    between [#], with the unperturbed baseline, exactly when that axis is
    opsz and opsz is omitted, and otherwise shows the value that is
    requested: the weight for wght, the baseline plus [0.0001f] for the
    bumped axis, the baseline for any other.  The baseline is the resolved
    value of the first axis with that identifier. *)
Theorem request_line_shows_every_axis (axes : list Axis) (variation : gmap Z float)
    (omit : bool) (bump : Z) (w : float) :
  ∃ resolved,
    result (resolve_axes axes variation) = Done resolved
    ∧ length (trace (build_request axes resolved omit bump w)) = length axes
    ∧ ∀ i a, axes !! i = Some a →
        ∃ a', first_axis (axis_identifier a) axes = Some a'
          ∧ trace (build_request axes resolved omit bump w) !! i
            = Some (if (axis_identifier a =? kOpszTag) && omit
                    then Printf "#%s: %f# "
                           [ArgString (tag_to_string (C.to_uint32 (axis_identifier a)));
                            ArgDouble (resolved_value variation a')]
                    else Printf "(%s: %f) "
                           [ArgString (tag_to_string (C.to_uint32 (axis_identifier a)));
                            ArgDouble
                              (if axis_identifier a =? kWghtTag then w
                               else if axis_identifier a =? bump
                               then (resolved_value variation a' + FLT_0_0001)%float
                               else resolved_value variation a')]).
Proof.
  exists (resolved_dictionary axes variation). split; [apply resolve_axes_result|].
  rewrite build_request_unfold by apply resolved_dictionary_complete. cbn [trace].
  enough (∀ l, (∀ x, x ∈ l → x ∈ axes) →
            length (concat (request_events (resolved_dictionary axes variation)
                              omit bump w <$> l)) = length l
            ∧ ∀ i a, l !! i = Some a →
                ∃ a', first_axis (axis_identifier a) axes = Some a'
                  ∧ concat (request_events (resolved_dictionary axes variation)
                              omit bump w <$> l) !! i
                    = Some (if (axis_identifier a =? kOpszTag) && omit
                            then Printf "#%s: %f# "
                                   [ArgString (tag_to_string (C.to_uint32 (axis_identifier a)));
                                    ArgDouble (resolved_value variation a')]
                            else Printf "(%s: %f) "
                                   [ArgString (tag_to_string (C.to_uint32 (axis_identifier a)));
                                    ArgDouble
                                      (if axis_identifier a =? kWghtTag then w
                                       else if axis_identifier a =? bump
                                       then (resolved_value variation a' + FLT_0_0001)%float
                                       else resolved_value variation a')]))
    as Hgen by by apply Hgen.
  induction l as [|x l IH]; intros Hsub; [split; [reflexivity|intros i a [=]]|].
  destruct IH as [IHlen IHlookup]; [intros y Hy; apply Hsub; by right|].
  assert (x ∈ axes) as Hx by (apply Hsub; left).
  destruct (first_axis (axis_identifier x) axes) as [x'|] eqn:Hfirst;
    [|apply first_axis_None in Hfirst; exfalso; apply Hfirst; by apply list_elem_of_fmap_2].
  assert (request_events (resolved_dictionary axes variation) omit bump w x
          = [if (axis_identifier x =? kOpszTag) && omit
             then Printf "#%s: %f# "
                    [ArgString (tag_to_string (C.to_uint32 (axis_identifier x)));
                     ArgDouble (resolved_value variation x')]
             else Printf "(%s: %f) "
                    [ArgString (tag_to_string (C.to_uint32 (axis_identifier x)));
                     ArgDouble
                       (if axis_identifier x =? kWghtTag then w
                        else if axis_identifier x =? bump
                        then (resolved_value variation x' + FLT_0_0001)%float
                        else resolved_value variation x')]]) as Hevent.
  { unfold request_events, skipped, requested_value.
    rewrite resolved_dictionary_lookup, Hfirst. cbn [fmap option_fmap option_map].
    by destruct ((axis_identifier x =? kOpszTag) && omit). }
  cbn [fmap list_fmap concat]. rewrite Hevent. cbn [app length]. split; [by rewrite IHlen|].
  intros [|i] a Ha; cbn in Ha.
  - injection Ha as <-. exists x'. by split.
  - apply (IHlookup i a Ha).
Qed.
